(** * Beam-sky convolution orchestration: [toast/ops/conviqt.py]

    A shallow embedding of the operators [SimConviqt] and
    [SimWeightedConviqt].  Python exceptions are values of [exn] carried by
    the error monad [result]; numpy arrays of float64 are lists of real
    numbers; flag arrays are lists of integers; Python dictionaries and sets
    are [gmap] and [gset].  The collaborators that the operator only calls
    (the quaternion-to-angle transform, the libconviqt convolver, the beam's
    normalisation flag) are variables of the sections below. *)

From Stdlib Require Import Reals Lra ZArith.
From stdpp Require Import gmap strings list sorting.

(** ** Python exceptions and fallible computations *)

Inductive exn :=
| RuntimeError (msg : string)
| KeyError (key : string)
| NameError (name : string)
| TypeError (msg : string)
| ValueError (msg : string)
| IndexError (msg : string).

Inductive result (A : Type) : Type :=
| Ok (a : A)
| Raise (e : exn).
Arguments Ok {A} a.
Arguments Raise {A} e.

#[global] Instance result_ret : MRet result := @Ok.
#[global] Instance result_bind : MBind result :=
  λ A B f m, match m with Ok a => f a | Raise e => Raise e end.

Definition is_ok {A} (m : result A) : bool :=
  match m with Ok _ => true | Raise _ => false end.

(** [d[key]] on a Python mapping. *)
Definition getitem {A} (key : string) (o : option A) : result A :=
  match o with
  | Some a => Ok a
  | None => Raise (KeyError key)
  end.

(** ** The part of numpy that the operator relies on *)

Module Np.

Inductive dtype := float64 | object.

Record ndarray := mk_ndarray { nd_dtype : dtype; nd_data : list R }.

(** What a variable such as [convolved_data] may hold. *)
Inductive value :=
| VNone
| VArr (a : ndarray).

Definition shape_error : exn :=
  ValueError "operands could not be broadcast together".

(** Broadcasting a one-dimensional operand to an output of [n] entries. *)
Definition broadcast_to {A} (n : nat) (b : list A) : result (list A) :=
  if decide (length b = n) then Ok b
  else match b with
       | [x] => Ok (replicate n x)
       | _ => Raise shape_error
       end.

(** [a op= b]: the output keeps the shape of [a]. *)
Definition inplace {A B} (f : A → B → A) (a : list A) (b : list B)
  : result (list A) :=
  b' ← broadcast_to (length a) b; Ok (zip_with f a b').

(** [a op b] on two one-dimensional operands. *)
Definition binary {A B C} (f : A → B → C) (a : list A) (b : list B)
  : result (list C) :=
  if decide (length a = length b) then Ok (zip_with f a b)
  else match a, b with
       | [x], _ => Ok (f x <$> b)
       | _, [y] => Ok ((λ x, f x y) <$> a)
       | _, _ => Raise shape_error
       end.

(** [a[lo : lo + n]]: slices are clipped to the array. *)
Definition slice {A} (lo n : nat) (a : list A) : list A := take n (drop lo a).

(** [a[lo : lo + n] *= c]. *)
Definition scale_slice (lo n : nat) (c : R) (a : list R) : list R :=
  take lo a ++ ((λ x, x * c)%R <$> slice lo n a) ++ drop (lo + n) a.

(** [a[mask] = x] with a boolean mask over the first axis. *)
Definition mask_assign {A} (a : list A) (mask : list bool) (x : A)
  : result (list A) :=
  if decide (length mask = length a)
  then Ok (zip_with (λ y (m : bool), if m then x else y) a mask)
  else Raise (IndexError "boolean index did not match indexed array").

Definition join_dtype (d1 d2 : dtype) : dtype :=
  match d1, d2 with
  | float64, float64 => float64
  | _, _ => object
  end.

(** [a * v] for a float64 array [a].  [None] becomes a zero-dimensional
    object array, so the product runs the object loop: it raises as soon as
    one element is multiplied, and returns an empty object array when there
    is none. *)
Definition multiply (a : list R) (v : value) : result ndarray :=
  match v with
  | VNone =>
      match a with
      | [] => Ok (mk_ndarray object [])
      | _ => Raise (TypeError "unsupported operand type(s) for *: 'float' and 'NoneType'")
      end
  | VArr b =>
      c ← binary Rmult a (nd_data b);
      Ok (mk_ndarray (join_dtype float64 (nd_dtype b)) c)
  end.

(** [v += t].  On an array this adds in place; [None] has no [__iadd__] nor
    [__add__], so Python falls back on the reflected [t.__radd__(None)]. *)
Definition iadd (v : value) (t : ndarray) : result value :=
  match v with
  | VNone =>
      match nd_data t with
      | [] => Ok (VArr (mk_ndarray object []))
      | _ => Raise (TypeError "unsupported operand type(s) for +: 'NoneType' and 'float'")
      end
  | VArr a =>
      match nd_dtype a, nd_dtype t with
      | float64, object =>
          Raise (TypeError "Cannot cast ufunc 'add' output from dtype('O') to dtype('float64')")
      | _, _ =>
          c ← inplace Rplus (nd_data a) (nd_data t);
          Ok (VArr (mk_ndarray (nd_dtype a) c))
      end
  end.

End Np.

(** ** Focal-plane description *)

Inductive angle_unit := radian | degree.

(** An astropy angle [Quantity]. *)
Record Quantity := mkQuantity { q_value : R; q_unit : angle_unit }.

Definition to_value (q : Quantity) (u : angle_unit) : R :=
  match q_unit q, u with
  | radian, radian | degree, degree => q_value q
  | degree, radian => (q_value q * (PI / 180))%R
  | radian, degree => (q_value q * (180 / PI))%R
  end.

(** One row of the focal-plane table, restricted to the columns the operator
    reads.  A column is [None] when its name is not in [props.colnames]. *)
Record Row := mkRow {
  col_psi_pol : option Quantity;
  col_pol_angle : option Quantity;
  col_psi_uv_deg : option Quantity;
  col_psi_uv : option Quantity;
  col_pol_leakage : option R
}.

(** [name in props.colnames]. *)
Definition in_colnames {A} (col : option A) : bool :=
  match col with Some _ => true | None => false end.

Definition _get_psi_pol (focalplane : gmap string Row) (det : string)
  : result R :=
  match focalplane !! det with
  | None => Raise (RuntimeError ("focalplane does not include " +:+ det))
  | Some props =>
      if in_colnames (col_psi_pol props) then
        q ← getitem "pol_angle" (col_pol_angle props);
        Ok (to_value q radian)
      else if in_colnames (col_pol_angle props) then
        q ← getitem "pol_angle" (col_pol_angle props);
        Ok (to_value q radian)
      else
        Raise (RuntimeError ("focalplane[" +:+ det +:+ "] does not include psi_pol"))
  end.

(** The last statement of the source is [return psipol], a name that is bound
    nowhere: once [psi_uv] has been read the function raises [NameError]. *)
Definition _get_psi_uv (focalplane : gmap string Row) (det : string)
  : result R :=
  match focalplane !! det with
  | None => Raise (RuntimeError ("focalplane does not include " +:+ det))
  | Some props =>
      if in_colnames (col_psi_uv_deg props) then
        q ← getitem "psi_uv" (col_psi_uv props);
        let psi_uv := to_value q radian in
        Raise (NameError "psipol")
      else
        Raise (RuntimeError ("focalplane[" +:+ det +:+ "] does not include psi_uv"))
  end.

Definition _get_epsilon (focalplane : gmap string Row) (det : string)
  : result R :=
  match focalplane !! det with
  | None => Raise (RuntimeError ("focalplane does not include " +:+ det))
  | Some props =>
      if in_colnames (col_pol_leakage props) then
        getitem "pol_leakage" (col_pol_leakage props)
      else
        Ok 0%R
  end.

(** ** Observations and operator traits *)

Definition quat : Type := R * R * R * R.

Definition nullquat : quat := (0, 0, 0, 1)%R.

(** One view (interval) of an observation.  The observation's dictionaries
    are read at the keys the operator is configured with, which are fixed for
    a whole run; every field has one entry per sample of the view. *)
Record View := mkView {
  shared_flags_data : list Z;             (* views.shared[shared_flags][view] *)
  det_flags_data : gmap string (list Z);  (* views.detdata[det_flags][view] *)
  quats_data : gmap string (list quat);   (* views.detdata[quats][view] *)
  hwp_angle_data : list R;                (* views.shared[hwp_angle][view] *)
  det_data_data : gmap string (list R)    (* views.detdata[det_data][view] *)
}.

Record Observation := mkObservation {
  local_detectors : list string;
  focalplane : gmap string Row;           (* obs.telescope.focalplane *)
  views : list View                       (* obs.view[self.view] *)
}.

(** [data.obs] *)
Definition Data : Type := list Observation.

(** The traits of [SimConviqt] that the embedded methods read. *)
Record Traits := mkTraits {
  calibrate : bool;
  dxx : bool;
  apply_flags : bool;
  shared_flags : option string;
  shared_flag_mask : Z;
  det_flags : option string;
  det_flag_mask : Z;
  hwp_angle : option string
}.

(** [conviqt.Detector(name=..., epsilon=...)] *)
Record Detector := mkDetector { detector_name : string; detector_epsilon : R }.

(** ** Loops that stop at the first exception *)

Fixpoint for_each {A B} (f : A → result B) (l : list A) : result (list B) :=
  match l with
  | [] => Ok []
  | x :: l' => y ← f x; ys ← for_each f l'; Ok (y :: ys)
  end.

Fixpoint fold_each {A S} (f : S → A → result S) (s : S) (l : list A)
  : result S :=
  match l with
  | [] => Ok s
  | x :: l' => s' ← f s x; fold_each f s' l'
  end.

(** ** The operator *)

Section Operator.

(** [qa.to_angles], applied to each row of the quaternion array. *)
Context (to_angles : quat → R * R * R).

(** libconviqt: sky and beam handles, the beam's [normalized()] flag, and the
    signal column that [Convolver.convolve] leaves in the pointing array. *)
Context {Sky Beam : Type}.
Context (normalized : Beam → bool).
Context (convolver : Sky → Beam → Detector → list (R * R * R) → list R).

Definition angle_theta (a : R * R * R) : R := a.1.1.
Definition angle_phi (a : R * R * R) : R := a.1.2.
Definition angle_psi (a : R * R * R) : R := a.2.

(** The flag array of one view: [None] when no flag applies.  Flags are
    unsigned bytes and the masks, which the traits validate to be
    non-negative, are taken to fit them. *)
Definition view_flags (self : Traits) (det : string) (view : View)
  : result (option (list Z)) :=
  if apply_flags self then
    let flags :=
      match shared_flags self with
      | Some _ =>
          Some ((λ f, Z.land f (shared_flag_mask self))
                <$> shared_flags_data view)
      | None => None
      end in
    match det_flags self with
    | Some _ =>
        detflags ← getitem det (det_flags_data view !! det);
        let detflags := (λ f, Z.land f (det_flag_mask self)) <$> detflags in
        match flags with
        | Some flags => flags ← Np.inplace Z.lor flags detflags; Ok (Some flags)
        | None => Ok (Some detflags)
        end
    | None => Ok flags
    end
  else Ok None.

(** [flags != 0] *)
Definition nonzero (flags : list Z) : list bool :=
  (λ f, negb (f =? 0)%Z) <$> flags.

(** The polarization angle that [get_pointing] subtracts from psi. *)
Definition effective_psi_pol (self : Traits) (fp : gmap string Row)
  (det : string) : result R :=
  psi_pol ← _get_psi_pol fp det;
  if dxx self then
    psi_uv ← _get_psi_uv fp det; Ok (psi_pol + psi_uv)%R
  else Ok psi_pol.

(** The body of the loop over views in [get_pointing]. *)
Definition view_pointing (self : Traits) (fp : gmap string Row)
  (det : string) (view : View)
  : result (list R * list R * list R * list R) :=
  flags ← view_flags self det view;
  quats ← getitem det (quats_data view !! det);
  quats ← match flags with
          | Some flags => Np.mask_assign quats (nonzero flags) nullquat
          | None => Ok quats
          end;
  let angles := to_angles <$> quats in
  let theta := angle_theta <$> angles in
  let phi := angle_phi <$> angles in
  let psi := angle_psi <$> angles in
  psi_pol ← effective_psi_pol self fp det;
  let psi := (λ x, x - psi_pol)%R <$> psi in
  let psi_pol := (λ one, one * psi_pol)%R <$> replicate (length psi) 1%R in
  psi_pol ← match hwp_angle self with
            | Some _ =>
                Np.inplace Rplus psi_pol ((λ h, 2 * h)%R <$> hwp_angle_data view)
            | None => Ok psi_pol
            end;
  Ok (theta, phi, psi, psi_pol).

Definition obs_pointing (self : Traits) (det : string) (obs : Observation)
  : result (list (list R * list R * list R * list R)) :=
  if bool_decide (det ∈ local_detectors obs)
  then for_each (view_pointing self (focalplane obs) det) (views obs)
  else Ok [].

(** [np.hstack]; with no view at all the source returns the empty Python
    lists themselves, which are read below only through [len] and
    [np.cos(2 * psi_pol)], as an empty array is. *)
Definition hstack (parts : list (list R)) : list R := mjoin parts.

Definition get_pointing (self : Traits) (data : Data) (det : string)
  : result (list R * list R * list R * list R) :=
  per_obs ← for_each (obs_pointing self det) data;
  let all := mjoin per_obs in
  Ok (hstack ((λ p, p.1.1.1) <$> all), hstack ((λ p, p.1.1.2) <$> all),
      hstack ((λ p, p.1.2) <$> all), hstack ((λ p, p.2) <$> all)).

(** The conviqt pointing array: one row (phi, theta, psi) per sample. *)
Definition get_buffer (theta phi psi : list R) : result (list (R * R * R)) :=
  let nrow := length theta in
  if bool_decide (0 < nrow) then
    col0 ← Np.broadcast_to nrow phi;
    col1 ← Np.broadcast_to nrow theta;
    col2 ← Np.broadcast_to nrow psi;
    Ok (zip_with (λ p tp, (p, tp.1, tp.2)) col0 (zip col1 col2))
  else Ok [].

Definition get_detector (det : string) : Detector :=
  {| detector_name := det; detector_epsilon := 0 |}.

Definition convolve (sky : Sky) (beam : Beam) (detector : Detector)
  (pnt : list (R * R * R)) : Np.value :=
  let column3 := convolver sky beam detector pnt in
  if bool_decide (0 < length pnt)
  then Np.VArr (Np.mk_ndarray Np.float64 column3)
  else Np.VNone.

Definition not_subscriptable : exn :=
  TypeError "'NoneType' object is not subscriptable".

(** One pass of the loop over views in [calibrate_signal]; the state is
    [(offset, convolved_data)].  [obs.detdata.ensure], which the source runs
    before the loop, is not modelled: a view without a timestream for [det]
    raises [KeyError] here. *)
Definition calibrate_view (det : string) (epsilon : R)
  (st : nat * Np.value) (view : View) : result (nat * Np.value) :=
  stored ← getitem det (det_data_data view !! det);
  let nsample := length stored in
  match st.2 with
  | Np.VNone => Raise not_subscriptable
  | Np.VArr a =>
      let scaled :=
        Np.scale_slice st.1 nsample (2 / (1 + epsilon))%R (Np.nd_data a) in
      Ok (st.1 + nsample, Np.VArr (Np.mk_ndarray (Np.nd_dtype a) scaled))
  end.

Definition calibrate_obs (det : string) (st : nat * Np.value)
  (obs : Observation) : result (nat * Np.value) :=
  if bool_decide (det ∈ local_detectors obs) then
    epsilon ← _get_epsilon (focalplane obs) det;
    fold_each (calibrate_view det epsilon) st (views obs)
  else Ok st.

(** [calibrate_signal] rescales [convolved_data] in place; the embedding
    returns the buffer's new contents. *)
Definition calibrate_signal (self : Traits) (data : Data) (det : string)
  (beam : Beam) (convolved_data : Np.value) : result Np.value :=
  if negb (calibrate self) || normalized beam then Ok convolved_data
  else st ← fold_each (calibrate_obs det) (0, convolved_data) data; Ok st.2.

Definition set_det_data (view : View) (det : string) (stored : list R)
  : View :=
  {| shared_flags_data := shared_flags_data view;
     det_flags_data := det_flags_data view;
     quats_data := quats_data view;
     hwp_angle_data := hwp_angle_data view;
     det_data_data := <[det := stored]> (det_data_data view) |}.

(** One pass of the loop over views in [save]:
    [view[det] += convolved_data[offset : offset + nsample]]. *)
Definition save_view (det : string) (convolved_data : Np.value)
  (offset : nat) (view : View) : result (nat * View) :=
  stored ← getitem det (det_data_data view !! det);
  let nsample := length stored in
  match convolved_data with
  | Np.VNone => Raise not_subscriptable
  | Np.VArr a =>
      match Np.nd_dtype a with
      | Np.object =>
          Raise (TypeError "Cannot cast ufunc 'add' output from dtype('O') to dtype('float64')")
      | Np.float64 =>
          stored ← Np.inplace Rplus stored
                              (Np.slice offset nsample (Np.nd_data a));
          Ok (offset + nsample, set_det_data view det stored)
      end
  end.

Fixpoint save_views (det : string) (convolved_data : Np.value)
  (offset : nat) (vs : list View) : result (nat * list View) :=
  match vs with
  | [] => Ok (offset, [])
  | view :: vs' =>
      '(offset, view) ← save_view det convolved_data offset view;
      '(offset, vs') ← save_views det convolved_data offset vs';
      Ok (offset, view :: vs')
  end.

Definition set_views (obs : Observation) (vs : list View) : Observation :=
  {| local_detectors := local_detectors obs;
     focalplane := focalplane obs;
     views := vs |}.

Fixpoint save_obs (det : string) (convolved_data : Np.value)
  (offset : nat) (data : Data) : result (nat * Data) :=
  match data with
  | [] => Ok (offset, [])
  | obs :: data' =>
      '(offset, obs) ←
        (if bool_decide (det ∈ local_detectors obs) then
           '(offset, vs) ← save_views det convolved_data offset (views obs);
           Ok (offset, set_views obs vs)
         else Ok (offset, obs));
      '(offset, data') ← save_obs det convolved_data offset data';
      Ok (offset, obs :: data')
  end.

(** [save] mutates the observations; the embedding returns them. *)
Definition save (data : Data) (det : string) (convolved_data : Np.value)
  : result Data :=
  st ← save_obs det convolved_data 0 data; Ok st.2.

(** The body of the detector loop of [SimConviqt._exec], from the pointing
    extraction on: [data] is what [detector_pointing.apply] has left, and
    sky and beam are loaded already.  The whole body is
    [SimConviqt_loop_body]. *)
Definition SimConviqt_exec_detector (self : Traits) (data : Data)
  (det : string) (sky : Sky) (beam : Beam) : result Data :=
  '(theta, phi, psi, psi_pol) ← get_pointing self data det;
  pnt ← get_buffer theta phi psi;
  let convolved_data := convolve sky beam (get_detector det) pnt in
  convolved_data ← calibrate_signal self data det beam convolved_data;
  save data det convolved_data.

(** The three convolutions of [SimWeightedConviqt._exec] and their
    recombination. *)
Definition weighted_signal (det : string) (sky : Sky)
  (beamI00 beam0I0 beam00I : Beam) (theta phi psi psi_pol : list R)
  : result Np.value :=
  let detector := get_detector det in
  pnt ← get_buffer theta phi psi;
  let convolved_data := convolve sky beamI00 detector pnt in
  pnt ← get_buffer theta phi psi;
  term ← Np.multiply ((λ p, cos (2 * p)) <$> psi_pol)
                     (convolve sky beam0I0 detector pnt);
  convolved_data ← Np.iadd convolved_data term;
  pnt ← get_buffer theta phi psi;
  term ← Np.multiply ((λ p, sin (2 * p)) <$> psi_pol)
                     (convolve sky beam00I detector pnt);
  Np.iadd convolved_data term.

(** The body of the detector loop of [SimWeightedConviqt._exec], from the
    pointing extraction on; the whole body is
    [SimWeightedConviqt_loop_body]. *)
Definition SimWeightedConviqt_exec_detector (self : Traits) (data : Data)
  (det : string) (sky : Sky) (beamI00 beam0I0 beam00I : Beam)
  : result Data :=
  '(theta, phi, psi, psi_pol) ← get_pointing self data det;
  convolved_data ← weighted_signal det sky beamI00 beam0I0 beam00I
                                   theta phi psi psi_pol;
  convolved_data ← calibrate_signal self data det beamI00 convolved_data;
  save data det convolved_data.

End Operator.

(** ** The distributed detector scheduler *)

Section Scheduler.

(** [obs.select_local_detectors(detectors)]: the names of the observation's
    local detectors that the caller selected. *)
Context (select_local_detectors :
           Observation → option (list string) → list string).

(** What [my_dets] holds after the loop over [data.obs] (the loop also runs
    [obs.detdata.ensure], which does not bear on the result). *)
Definition local_dets (detectors : option (list string)) (data : Data)
  : gset string :=
  foldl (λ my_dets obs,
           foldl (λ my_dets det, {[det]} ∪ my_dets) my_dets
                 (select_local_detectors obs detectors))
        ∅ data.

(** [comm.gather(x, root=0)]: the root receives the objects of all ranks in
    rank order, every other rank receives [None]. *)
Definition comm_gather {A} (sent : list A) (rank : nat) : option (list A) :=
  if decide (rank = 0) then Some sent else None.

(** [comm.bcast(x, root=0)]: every rank receives the root's object. *)
Definition comm_bcast {A} (sent : list A) : option A := sent !! 0.

(** [sorted(my_dets)] on a set of strings. *)
Definition sorted (s : gset string) : list string :=
  merge_sort String.le (elements s).

(** [my_dets] is a set, and on the root a sorted list once it is rebound. *)
Inductive dets_value :=
| DSet (s : gset string)
| DList (l : list string).

(** The object that process [rank] hands to [comm.bcast]; [world] lists the
    data of every process of the communicator in rank order. *)
Definition before_bcast (detectors : option (list string))
  (world : list Data) (rank : nat) : option dets_value :=
  data ← world !! rank;
  let my_dets := local_dets detectors data in
  let all_dets := comm_gather (local_dets detectors <$> world) rank in
  if decide (rank = 0) then
    all_dets ← all_dets;
    let my_dets :=
      foldl (λ my_dets some_dets, my_dets ∪ some_dets) my_dets all_dets in
    Some (DList (sorted my_dets))
  else Some (DSet my_dets).

(** What [_get_all_detectors] returns on process [rank]. *)
Definition _get_all_detectors (detectors : option (list string))
  (world : list Data) (rank : nat) : option dets_value :=
  _ ← world !! rank;
  sent ← mapM (before_bcast detectors world) (seq 0 (length world));
  comm_bcast sent.

(** The union of the sets that the processes of [world] build locally. *)
Definition all_local_dets (detectors : option (list string))
  (world : list Data) : gset string :=
  ⋃ (local_dets detectors <$> world).

End Scheduler.

(** ** Beam files of the weighted operator *)

(** [s.replace(old, new)] scans [s] from the left: where [old] starts it
    writes [new] and resumes after the match, elsewhere it copies one
    character.  [skip] counts the characters of a match still to pass. *)
Fixpoint replace_from (old new : string) (skip : nat) (s : string) : string :=
  match s with
  | EmptyString => EmptyString
  | String c s' =>
      match skip with
      | S skip' => replace_from old new skip' s'
      | 0 =>
          if String.prefix old s
          then new +:+ replace_from old new (String.length old - 1) s'
          else String c (replace_from old new 0 s')
      end
  end.

(** With an empty [old], Python writes [new] before every character and at
    the end. *)
Fixpoint interleave (new s : string) : string :=
  match s with
  | EmptyString => new
  | String c s' => new +:+ String c (interleave new s')
  end.

Definition str_replace (s old new : string) : string :=
  match old with
  | EmptyString => interleave new s
  | _ => replace_from old new 0 s
  end.

(** The names [beam_file_i00], [beam_file_0i0] and [beam_file_00i] that
    [SimWeightedConviqt._exec] derives from [beam_file]. *)
Definition weighted_beam_files (beam_file : string)
  : string * string * string :=
  (str_replace beam_file ".fits" "_I000.fits",
   str_replace beam_file ".fits" "_0I00.fits",
   str_replace beam_file ".fits" "_00I0.fits").

(** ** The body of the detector loop *)

(** The traits that name the input files.  The dictionaries map detector
    names to file names; the templates are [None] when they are not set. *)
Record FileTraits := mkFileTraits {
  sky_file_dict : option (gmap string string);
  sky_file : option string;
  beam_file_dict : option (gmap string string);
  beam_file : option string;
  mc : option Z
}.

Section LoopBody.

Context (to_angles : quat → R * R * R).
Context {Sky Beam : Type}.
Context (normalized : Beam → bool).
Context (convolver : Sky → Beam → Detector → list (R * R * R) → list R).

(** [self.detector_pointing.apply(data, detectors=...)]: the pointing
    operator, which writes the detector quaternions into the observations;
    the embedding returns the observations it leaves. *)
Context (detector_pointing_apply : Data → list string → result Data).

(** [template.format(detector=det, mc=mc)] on a template trait. *)
Context (format : option string → string → option Z → result string).

(** [get_sky] and [get_beam] build the libconviqt objects from a file; their
    other arguments only feed the timer reports. *)
Context (get_sky : string → result Sky).
Context (get_beam : string → result Beam).

(** The file of a detector: its entry in the dictionary, or else the
    formatted template. *)
Definition input_file (file_dict : option (gmap string string))
  (template : option string) (mc : option Z) (det : string) : result string :=
  match file_dict with
  | None => Raise (TypeError "argument of type 'NoneType' is not iterable")
  | Some file_dict =>
      match file_dict !! det with
      | Some file => Ok file
      | None => format template det mc
      end
  end.

(** One pass of the detector loop of [SimConviqt._exec]. *)
Definition SimConviqt_loop_body (self : Traits) (files : FileTraits)
  (data : Data) (det : string) : result Data :=
  data ← detector_pointing_apply data [det];
  sky_file ← input_file (sky_file_dict files) (sky_file files) (mc files) det;
  sky ← get_sky sky_file;
  beam_file ← input_file (beam_file_dict files) (beam_file files) (mc files)
                         det;
  beam ← get_beam beam_file;
  SimConviqt_exec_detector to_angles normalized convolver self data det
                           sky beam.

(** One pass of the detector loop of [SimWeightedConviqt._exec]. *)
Definition SimWeightedConviqt_loop_body (self : Traits) (files : FileTraits)
  (data : Data) (det : string) : result Data :=
  data ← detector_pointing_apply data [det];
  sky_file ← input_file (sky_file_dict files) (sky_file files) (mc files) det;
  sky ← get_sky sky_file;
  beam_file ← input_file (beam_file_dict files) (beam_file files) (mc files)
                         det;
  let '(beam_file_i00, beam_file_0i0, beam_file_00i) :=
    weighted_beam_files beam_file in
  beamI00 ← get_beam beam_file_i00;
  beam0I0 ← get_beam beam_file_0i0;
  beam00I ← get_beam beam_file_00i;
  SimWeightedConviqt_exec_detector to_angles normalized convolver self data
                                   det sky beamI00 beam0I0 beam00I.

End LoopBody.

(** ** The traversal shared by [get_pointing], [calibrate_signal] and [save] *)

(** The views the three loops visit for [det], in the order they visit them:
    observation by observation, skipping those where [det] is not local. *)
Definition det_views (data : Data) (det : string)
  : list (Observation * View) :=
  obs ← data;
  if bool_decide (det ∈ local_detectors obs)
  then (λ view, (obs, view)) <$> views obs
  else [].

(** [view[det]] of the [det_data] timestream, empty when it does not exist. *)
Definition stored (det : string) (view : View) : list R :=
  default [] (det_data_data view !! det).

Definition det_segments (data : Data) (det : string) : list (list R) :=
  (λ ov, stored det ov.2) <$> det_views data det.

Definition total_samples (data : Data) (det : string) : nat :=
  sum_list (length <$> det_segments data det).

(** [obs.detdata.ensure(det_data, ...)] has been run: every visited view has
    a timestream for [det]. *)
Definition det_data_ensured (data : Data) (det : string) : Prop :=
  Forall (λ ov, is_Some (det_data_data ov.2 !! det)) (det_views data det).

(** ** Notions used to state the properties *)

(** The quaternions of a view once the flagged samples are nulled. *)
Definition masked_quats (flags : option (list Z)) (quats : list quat)
  : result (list quat) :=
  match flags with
  | Some flags => Np.mask_assign quats (nonzero flags) nullquat
  | None => Ok quats
  end.

(** The array [psi_pol] of a view of [n] samples. *)
Definition psi_pol_array (self : Traits) (view : View) (n : nat) (eff : R)
  : result (list R) :=
  let psi_pol := (λ one, one * eff)%R <$> replicate n 1%R in
  match hwp_angle self with
  | Some _ => Np.inplace Rplus psi_pol ((λ h, 2 * h)%R <$> hwp_angle_data view)
  | None => Ok psi_pol
  end.

(** The four arrays of one view. *)
Definition part_theta (p : list R * list R * list R * list R) := p.1.1.1.
Definition part_phi (p : list R * list R * list R * list R) := p.1.1.2.
Definition part_psi (p : list R * list R * list R * list R) := p.1.2.
Definition part_psi_pol (p : list R * list R * list R * list R) := p.2.

(** The quaternion rows of [det] in a view, none when it has no entry. *)
Definition quat_rows (det : string) (view : View) : list quat :=
  default [] (quats_data view !! det).

(** The view after [view[det] += seg]. *)
Definition accumulated (det : string) (view : View) (seg : list R) : View :=
  set_det_data view det (zip_with Rplus (stored det view) seg).

(** The observations with the visited views replaced, in traversal order,
    by [vs]. *)
Fixpoint put_views (det : string) (data : Data) (vs : list View) : Data :=
  match data with
  | [] => []
  | obs :: data' =>
      if bool_decide (det ∈ local_detectors obs)
      then set_views obs (take (length (views obs)) vs)
           :: put_views det data' (drop (length (views obs)) vs)
      else obs :: put_views det data' vs
  end.

(** [det] appears in no view of the local process. *)
Definition no_views (data : Data) (det : string) : Prop :=
  Forall (λ obs, det ∈ local_detectors obs → views obs = []) data.

(** The focal plane of every observation describes its local detectors. *)
Definition in_focalplane (data : Data) (det : string) : Prop :=
  Forall (λ obs, det ∈ local_detectors obs → is_Some (focalplane obs !! det))
         data.

(** What [get_pointing] needs to go through for [det]: the Pxx beam frame,
    a 'pol_angle' column for the detector, its quaternions in every visited
    view, and flag and HWP streams that have one entry per quaternion row
    where they are configured. *)
Definition view_ready (self : Traits) (det : string)
  (ov : Observation * View) : Prop :=
  (∃ props q, focalplane ov.1 !! det = Some props
              ∧ col_pol_angle props = Some q)
  ∧ ∃ quats,
      quats_data ov.2 !! det = Some quats
      ∧ (apply_flags self = true → is_Some (shared_flags self) →
         length (shared_flags_data ov.2) = length quats)
      ∧ (apply_flags self = true → is_Some (det_flags self) →
         ∃ detflags, det_flags_data ov.2 !! det = Some detflags
                     ∧ length detflags = length quats)
      ∧ (is_Some (hwp_angle self) →
         length (hwp_angle_data ov.2) = length quats).

Definition pointing_ready (self : Traits) (data : Data) (det : string)
  : Prop :=
  dxx self = false ∧ Forall (view_ready self det) (det_views data det).

(** What one flag stream adds to the mask of sample [i]: its flag ANDed
    with the stream's mask, and nothing when the stream is not configured. *)
Definition masked_flag (key : option string) (mask : Z)
  (stream : option (list Z)) (i : nat) : option Z :=
  match key with
  | Some _ => flags ← stream; f ← flags !! i; Some (Z.land f mask)
  | None => Some 0%Z
  end.

(** The combined mask of sample [i] of a view, as the specification words
    it: (shared flags AND [shared_flag_mask]) OR (detector flags AND
    [det_flag_mask]). *)
Definition combined_mask (self : Traits) (det : string) (view : View)
  (i : nat) : option Z :=
  s ← masked_flag (shared_flags self) (shared_flag_mask self)
                  (Some (shared_flags_data view)) i;
  d ← masked_flag (det_flags self) (det_flag_mask self)
                  (det_flags_data view !! det) i;
  Some (Z.lor s d).

(** [old] occurs in [s]. *)
Definition occurs_in (old s : string) : Prop :=
  ∃ pre post, s = pre +:+ old +:+ post.

(** The traits with flag application switched off. *)
Definition without_flags (self : Traits) : Traits :=
  {| calibrate := calibrate self; dxx := dxx self; apply_flags := false;
     shared_flags := shared_flags self;
     shared_flag_mask := shared_flag_mask self;
     det_flags := det_flags self; det_flag_mask := det_flag_mask self;
     hwp_angle := hwp_angle self |}.

(** Two states of a view that differ at most in the timestream of [det],
    which exists and has the same number of samples in both. *)
Definition same_but_timestream (det : string) (view view' : View) : Prop :=
  shared_flags_data view' = shared_flags_data view
  ∧ det_flags_data view' = det_flags_data view
  ∧ quats_data view' = quats_data view
  ∧ hwp_angle_data view' = hwp_angle_data view
  ∧ (∀ d, d ≠ det → det_data_data view' !! d = det_data_data view !! d)
  ∧ is_Some (det_data_data view !! det)
  ∧ is_Some (det_data_data view' !! det)
  ∧ length (stored det view') = length (stored det view).

(** Two states of an observation that differ at most in the timestreams of
    [det], and not at all when [det] is not one of its local detectors. *)
Definition same_but_timestreams (det : string) (obs obs' : Observation)
  : Prop :=
  local_detectors obs' = local_detectors obs
  ∧ focalplane obs' = focalplane obs
  ∧ (if bool_decide (det ∈ local_detectors obs)
     then Forall2 (same_but_timestream det) (views obs) (views obs')
     else views obs' = views obs).

(** A signal after [calibrate_signal], for a detector of leakage [epsilon]
    in every observation. *)
Definition calibrated {Beam : Type} (normalized : Beam → bool) (self : Traits)
  (beam : Beam) (epsilon : R) (signal : list R) : list R :=
  if negb (calibrate self) || normalized beam then signal
  else (λ x, x * (2 / (1 + epsilon)))%R <$> signal.

(** The weighted sum of the three convolutions, sample by sample. *)
Definition recombined (psi_pol conv_I conv_Q conv_U : list R) : list R :=
  zip_with Rplus
    (zip_with Rplus conv_I
       (zip_with Rmult ((λ p, cos (2 * p)) <$> psi_pol) conv_Q))
    (zip_with Rmult ((λ p, sin (2 * p)) <$> psi_pol) conv_U).

(** Every stored timestream of [det] has one sample per quaternion row. *)
Definition timestreams_aligned (data : Data) (det : string) : Prop :=
  Forall (λ ov, length (stored det ov.2) = length (quat_rows det ov.2))
         (det_views data det).

(** ** Sample inputs *)

(** A detector row with the deprecated angle column only (one radian, no
    leakage entry). *)
Definition row_pol_angle : Row :=
  {| col_psi_pol := None;
     col_pol_angle := Some (mkQuantity 1 radian);
     col_psi_uv_deg := None; col_psi_uv := None; col_pol_leakage := None |}.

(** A view of [n] zero-initialised samples of detector "det0", with identity
    quaternions, no flag raised and the half-wave plate at rest. *)
Definition zero_view (n : nat) : View :=
  {| shared_flags_data := replicate n 0%Z;
     det_flags_data := {[ "det0" := replicate n 0%Z ]};
     quats_data := {[ "det0" := replicate n nullquat ]};
     hwp_angle_data := replicate n 0%R;
     det_data_data := {[ "det0" := replicate n 0%R ]} |}.

(** One observation of "det0" with a view of one sample and a view of two. *)
Definition two_views : Data :=
  [ {| local_detectors := ["det0"];
       focalplane := {[ "det0" := row_pol_angle ]};
       views := [zero_view 1; zero_view 2] |} ].

(** One observation of "det0" with a single view of two samples. *)
Definition one_view : Data :=
  [ {| local_detectors := ["det0"];
       focalplane := {[ "det0" := row_pol_angle ]};
       views := [zero_view 2] |} ].

(** An observation that only lists its local detectors. *)
Definition obs_of (dets : list string) : Observation :=
  {| local_detectors := dets; focalplane := ∅; views := [] |}.

(** Three detectors spread over two processes, in two different ways. *)
Definition world_a : list Data :=
  [ [obs_of ["d2"; "d1"]]; [obs_of ["d3"]; obs_of ["d1"]] ].

Definition world_b : list Data :=
  [ [obs_of ["d3"]]; [obs_of ["d2"]]; [obs_of ["d1"; "d3"]] ].

(** [select_local_detectors] when every local detector is selected. *)
Definition select_all (obs : Observation) (detectors : option (list string))
  : list string :=
  local_detectors obs.

(** A detector row that has the columns [_get_psi_uv] looks for. *)
Definition row_uv : Row :=
  {| col_psi_pol := None;
     col_pol_angle := Some (mkQuantity 1 radian);
     col_psi_uv_deg := Some (mkQuantity 45 degree);
     col_psi_uv := Some (mkQuantity (PI / 4) radian);
     col_pol_leakage := None |}.

Definition uv_data : Data :=
  [ {| local_detectors := ["det0"];
       focalplane := {[ "det0" := row_uv ]};
       views := [zero_view 1] |} ].

(** A view of four samples: the shared flags mark the second one, the
    detector flags the fourth one. *)
Definition flagged_view : View :=
  {| shared_flags_data := [0; 1; 0; 0]%Z;
     det_flags_data := {[ "det0" := [0; 0; 0; 2]%Z ]};
     quats_data :=
       {[ "det0" := [(1, 0, 0, 0); (0, 1, 0, 0); (0, 0, 1, 0); (1, 1, 1, 1)]%R ]};
     hwp_angle_data := [0; 1; 2; 3]%R;
     det_data_data := {[ "det0" := [0; 0; 0; 0]%R ]} |}.

Definition flagged_data : Data :=
  [ {| local_detectors := ["det0"];
       focalplane := {[ "det0" := row_pol_angle ]};
       views := [flagged_view] |} ].

(** Flags applied with masks 1 and 2, half-wave plate configured. *)
Definition flag_traits : Traits :=
  {| calibrate := true; dxx := false; apply_flags := true;
     shared_flags := Some "flags"; shared_flag_mask := 1;
     det_flags := Some "flags"; det_flag_mask := 2;
     hwp_angle := Some "hwp_angle" |}.

(** The default beam frame ([dxx=True]), nothing else configured. *)
Definition dxx_traits : Traits :=
  {| calibrate := true; dxx := true; apply_flags := false;
     shared_flags := None; shared_flag_mask := 0;
     det_flags := None; det_flag_mask := 0; hwp_angle := None |}.

(** A stand-in for [qa.to_angles] in the sample runs: the first three
    components of the quaternion. *)
Definition sample_to_angles (q : quat) : R * R * R := (q.1.1.1, q.1.1.2, q.1.2).

(** A detector whose polarization angle is zero. *)
Definition row_zero_angle : Row :=
  {| col_psi_pol := None;
     col_pol_angle := Some (mkQuantity 0 radian);
     col_psi_uv_deg := None; col_psi_uv := None; col_pol_leakage := None |}.

(** Two samples, the half-wave plate at 0 and at pi/8. *)
Definition hwp_view : View :=
  {| shared_flags_data := [0; 0]%Z;
     det_flags_data := {[ "det0" := [0; 0]%Z ]};
     quats_data := {[ "det0" := [nullquat; nullquat] ]};
     hwp_angle_data := [0; PI / 8]%R;
     det_data_data := {[ "det0" := [0; 0]%R ]} |}.

Definition hwp_data : Data :=
  [ {| local_detectors := ["det0"];
       focalplane := {[ "det0" := row_zero_angle ]};
       views := [hwp_view] |} ].

(** No flags, Pxx beam frame, half-wave plate configured. *)
Definition hwp_traits : Traits :=
  {| calibrate := true; dxx := false; apply_flags := false;
     shared_flags := None; shared_flag_mask := 0;
     det_flags := None; det_flag_mask := 0; hwp_angle := Some "hwp_angle" |}.

(** The test double of the convolver: a signal of ones. *)
Definition ones_convolver (sky beam : unit) (detector : Detector)
  (pnt : list (R * R * R)) : list R :=
  replicate (length pnt) 1%R.

(** "det0" is local to an observation without views, and not local to the
    other observation. *)
Definition no_view_data : Data :=
  [ {| local_detectors := ["det0"];
       focalplane := {[ "det0" := row_pol_angle ]};
       views := [] |};
    {| local_detectors := ["det1"];
       focalplane := {[ "det1" := row_pol_angle ]};
       views := [zero_view 2] |} ].

(** Calibration on, no flags, Pxx beam frame, no half-wave plate. *)
Definition plain_traits : Traits :=
  {| calibrate := true; dxx := false; apply_flags := false;
     shared_flags := None; shared_flag_mask := 0;
     det_flags := None; det_flag_mask := 0; hwp_angle := None |}.

(** A detector row with both the current and the deprecated angle column. *)
Definition row_both : Row :=
  {| col_psi_pol := Some (mkQuantity 1 radian);
     col_pol_angle := Some (mkQuantity 90 degree);
     col_psi_uv_deg := None; col_psi_uv := None; col_pol_leakage := None |}.

(** A detector row that only has the current [psi_pol] column. *)
Definition row_psi_pol_only : Row :=
  {| col_psi_pol := Some (mkQuantity 1 radian);
     col_pol_angle := None;
     col_psi_uv_deg := None; col_psi_uv := None; col_pol_leakage := None |}.

(** A view of "det0" that holds no sample. *)
Definition empty_view : View := zero_view 0.

(** One observation of "det0" whose only view is empty. *)
Definition empty_view_data : Data :=
  [ {| local_detectors := ["det0"];
       focalplane := {[ "det0" := row_pol_angle ]};
       views := [empty_view] |} ].

(** Flags applied with mask 1 from the shared stream alone. *)
Definition shared_only_traits : Traits :=
  {| calibrate := true; dxx := false; apply_flags := true;
     shared_flags := Some "flags"; shared_flag_mask := 1;
     det_flags := None; det_flag_mask := 0;
     hwp_angle := None |}.

(** Flags applied with zero masks. *)
Definition zero_mask_traits : Traits :=
  {| calibrate := true; dxx := false; apply_flags := true;
     shared_flags := Some "flags"; shared_flag_mask := 0;
     det_flags := Some "flags"; det_flag_mask := 0;
     hwp_angle := Some "hwp_angle" |}.

(** Stand-ins for the collaborators of the loop body in the sample runs:
    the pointing is expanded already, every file loads, and a template
    formats to the detector name. *)
Definition pointing_expanded (data : Data) (detectors : list string)
  : result Data := Ok data.

Definition sample_format (template : option string) (det : string)
  (mc : option Z) : result string := Ok det.

Definition sample_load (file : string) : result unit := Ok ().

(** No file dictionary entry, templates set. *)
Definition sample_files : FileTraits :=
  {| sky_file_dict := Some ∅; sky_file := Some "sky_{detector}.fits";
     beam_file_dict := Some ∅; beam_file := Some "beam_{detector}.fits";
     mc := None |}.

(** * Properties *)

(** ** Focal-plane accessors *)

Lemma _get_psi_uv_raises (fp : gmap string Row) (det : string) :
  ∃ e, _get_psi_uv fp det = Raise e.
Proof.
  unfold _get_psi_uv.
  destruct (fp !! det) as [props|]; [|eauto].
  destruct (in_colnames (col_psi_uv_deg props)); [|eauto].
  destruct (col_psi_uv props); simpl; eauto.
Qed.

Lemma _get_epsilon_default (fp : gmap string Row) (det : string) (props : Row) :
  fp !! det = Some props →
  col_pol_leakage props = None →
  _get_epsilon fp det = Ok 0%R.
Proof. intros Hdet Hcol. unfold _get_epsilon. by rewrite Hdet, Hcol. Qed.

Lemma _get_epsilon_column (fp : gmap string Row) (det : string) (props : Row)
  (epsilon : R) :
  fp !! det = Some props →
  col_pol_leakage props = Some epsilon →
  _get_epsilon fp det = Ok epsilon.
Proof. intros Hdet Hcol. unfold _get_epsilon. by rewrite Hdet, Hcol. Qed.

(** C10: what [_get_psi_pol] does with the two angle columns.  It never
    reads the 'psi_pol' column: whenever the row has a 'pol_angle' column
    it returns that column's value in radians, and on a row that has
    'psi_pol' but no 'pol_angle', where the claim has it return, the branch
    that tested for 'psi_pol' looks up 'pol_angle' and raises [KeyError].
    It raises [RuntimeError] exactly when the detector is absent from the
    focal plane or the row has neither column. *)
Theorem C10_get_psi_pol_reads_pol_angle (fp : gmap string Row) (det : string) :
  (∀ props q,
      fp !! det = Some props → col_pol_angle props = Some q →
      _get_psi_pol fp det = Ok (to_value q radian))
  ∧ ((∃ msg, _get_psi_pol fp det = Raise (RuntimeError msg))
     ↔ (fp !! det = None
        ∨ ∃ props, fp !! det = Some props
                   ∧ col_psi_pol props = None ∧ col_pol_angle props = None))
  ∧ (∀ props,
      fp !! det = Some props →
      in_colnames (col_psi_pol props) = true → col_pol_angle props = None →
      _get_psi_pol fp det = Raise (KeyError "pol_angle"))
  ∧ _get_psi_pol {[ "det0" := row_psi_pol_only ]} "det0"
    = Raise (KeyError "pol_angle").
Proof.
  unfold _get_psi_pol. split; [|split; [|split]].
  - intros props q -> Hq. rewrite Hq. simpl.
    by destruct (in_colnames (col_psi_pol props)).
  - destruct (fp !! det) as [props|]; [|split; eauto].
    destruct (col_psi_pol props) as [p|] eqn:Hp,
             (col_pol_angle props) as [a|] eqn:Ha; simpl; split.
    all: try (intros [msg Hmsg]; discriminate).
    all: try (intros [?|(props' & ? & ? & ?)]; simplify_eq).
    all: eauto 10.
  - intros props -> Hp Ha. by rewrite Hp, Ha.
  - reflexivity.
Qed.

Lemma C10_get_psi_pol_reads_pol_angle_witness :
  _get_psi_pol {[ "det0" := row_both ]} "det0" = Ok (90 * (PI / 180))%R
  ∧ _get_psi_pol {[ "det0" := row_psi_pol_only ]} "det0"
    = Raise (KeyError "pol_angle").
Proof.
  split.
  - apply (proj1 (C10_get_psi_pol_reads_pol_angle {[ "det0" := row_both ]} "det0")
             row_both (mkQuantity 90 degree)); reflexivity.
  - apply (proj1 (proj2 (proj2 (C10_get_psi_pol_reads_pol_angle
                                  {[ "det0" := row_psi_pol_only ]} "det0")))
             row_psi_pol_only); reflexivity.
Defined.

(** The claim fails on that row: 'psi_pol' is among its column names, and
    [_get_psi_pol] returns no value. *)
Lemma C10_counterexample :
  in_colnames (col_psi_pol row_psi_pol_only) = true
  ∧ ¬ ∃ psi_pol, _get_psi_pol {[ "det0" := row_psi_pol_only ]} "det0" = Ok psi_pol.
Proof. split; [reflexivity|]. intros [psi_pol H]. discriminate H. Qed.

(** ** Array operations *)

Lemma broadcast_to_same {A} (n : nat) (b : list A) :
  length b = n → Np.broadcast_to n b = Ok b.
Proof. intros H. unfold Np.broadcast_to. by rewrite decide_True. Qed.

Lemma broadcast_to_length {A} (n : nat) (b b' : list A) :
  Np.broadcast_to n b = Ok b' → length b' = n.
Proof.
  unfold Np.broadcast_to. case_decide as Hn; [by intros [= <-]|].
  destruct b as [|x [|y b]]; intros [= <-]. apply length_replicate.
Qed.

Lemma broadcast_to_lookup {A} (n i : nat) (b b' : list A) (x : A) :
  Np.broadcast_to n b = Ok b' → i < n → b !! i = Some x → b' !! i = Some x.
Proof.
  unfold Np.broadcast_to. case_decide as Hn; [by intros [= <-]|].
  destruct b as [|y [|z b]]; intros [= <-] Hi Hx.
  destruct i; [|done]. simplify_eq/=. by apply lookup_replicate_2.
Qed.

Lemma inplace_same {A B} (f : A → B → A) (a : list A) (b : list B) :
  length b = length a → Np.inplace f a b = Ok (zip_with f a b).
Proof. intros H. unfold Np.inplace. by rewrite broadcast_to_same. Qed.

Lemma inplace_length {A B} (f : A → B → A) (a c : list A) (b : list B) :
  Np.inplace f a b = Ok c → length c = length a.
Proof.
  unfold Np.inplace. destruct (Np.broadcast_to _ b) as [b'|] eqn:Hb; [|done].
  intros [= <-]. apply broadcast_to_length in Hb.
  rewrite length_zip_with. lia.
Qed.

Lemma inplace_lookup {A B} (f : A → B → A) (a c : list A) (b : list B)
  (i : nat) (x : A) (y : B) :
  Np.inplace f a b = Ok c → a !! i = Some x → b !! i = Some y →
  c !! i = Some (f x y).
Proof.
  unfold Np.inplace. destruct (Np.broadcast_to _ b) as [b'|] eqn:Hb; [|done].
  intros [= <-] Hx Hy. apply lookup_zip_with_Some. exists x, y.
  split_and!; [done..|].
  eapply broadcast_to_lookup; [done| |done]. by eapply lookup_lt_Some.
Qed.

Lemma binary_same {A B C} (f : A → B → C) (a : list A) (b : list B) :
  length a = length b → Np.binary f a b = Ok (zip_with f a b).
Proof. intros H. unfold Np.binary. by rewrite decide_True. Qed.

Lemma mask_assign_length {A} (a a' : list A) (mask : list bool) (x : A) :
  Np.mask_assign a mask x = Ok a' → length a' = length a.
Proof.
  unfold Np.mask_assign. case_decide as Hn; [|done]. intros [= <-].
  rewrite length_zip_with. lia.
Qed.

Lemma mask_assign_lookup_true {A} (a a' : list A) (mask : list bool) (x : A)
  (i : nat) :
  Np.mask_assign a mask x = Ok a' → mask !! i = Some true → a' !! i = Some x.
Proof.
  unfold Np.mask_assign. case_decide as Hn; [|done]. intros [= <-] Hm.
  destruct (lookup_lt_is_Some_2 a i) as [y Hy].
  { rewrite <-Hn. by eapply lookup_lt_Some. }
  apply lookup_zip_with_Some. by exists y, true.
Qed.

Lemma scale_slice_length (lo n : nat) (c : R) (a : list R) :
  length (Np.scale_slice lo n c a) = length a.
Proof.
  unfold Np.scale_slice, Np.slice.
  rewrite !length_app, length_take, length_fmap, length_take, !length_drop.
  lia.
Qed.

Lemma scale_slice_lookup (lo n : nat) (c : R) (a : list R) (i : nat) :
  Np.scale_slice lo n c a !! i
  = if bool_decide (lo ≤ i < lo + n) then (λ x, x * c)%R <$> a !! i else a !! i.
Proof.
  destruct (decide (i < length a)) as [Hi|Hi].
  2:{ rewrite (lookup_ge_None_2 a) by lia.
      rewrite lookup_ge_None_2 by (rewrite scale_slice_length; lia).
      by case_bool_decide. }
  unfold Np.scale_slice, Np.slice.
  destruct (decide (i < lo)) as [Hlt|Hge].
  { rewrite bool_decide_false by lia.
    rewrite lookup_app_l by (rewrite length_take; lia).
    by rewrite lookup_take_lt. }
  rewrite lookup_app_r by (rewrite length_take; lia).
  rewrite length_take, Nat.min_l by lia.
  destruct (decide (i < lo + n)) as [Hin|Hout].
  - rewrite bool_decide_true by lia.
    rewrite lookup_app_l
      by (rewrite length_fmap, length_take, length_drop; lia).
    rewrite list_lookup_fmap, lookup_take_lt by lia.
    rewrite lookup_drop. do 2 f_equal. lia.
  - rewrite bool_decide_false by lia.
    rewrite lookup_app_r
      by (rewrite length_fmap, length_take, length_drop; lia).
    rewrite length_fmap, length_take, length_drop, lookup_drop.
    f_equal. lia.
Qed.

Lemma scale_slice_compose (lo n m : nat) (c : R) (a : list R) :
  Np.scale_slice (lo + n) m c (Np.scale_slice lo n c a)
  = Np.scale_slice lo (n + m) c a.
Proof.
  apply list_eq. intros i. rewrite !scale_slice_lookup.
  repeat case_bool_decide; try done; lia.
Qed.

Lemma scale_slice_nothing (lo : nat) (c : R) (a : list R) :
  Np.scale_slice lo 0 c a = a.
Proof.
  apply list_eq. intros i. rewrite scale_slice_lookup.
  case_bool_decide; [lia|done].
Qed.

Lemma scale_slice_whole (n : nat) (c : R) (a : list R) :
  length a ≤ n → Np.scale_slice 0 n c a = (λ x, x * c)%R <$> a.
Proof.
  intros Hn. apply list_eq. intros i.
  rewrite scale_slice_lookup, list_lookup_fmap.
  case_bool_decide as Hi; [done|].
  rewrite lookup_ge_None_2 by lia. done.
Qed.

(** ** Loops *)

Lemma for_each_Forall2 {A B} (f : A → result B) (l : list A) (ys : list B) :
  for_each f l = Ok ys ↔ Forall2 (λ x y, f x = Ok y) l ys.
Proof.
  revert ys. induction l as [|x l IH]; intros ys; simpl.
  - split; [intros [= <-]; constructor|by inversion 1].
  - destruct (f x) as [y|] eqn:Hfx; simpl.
    + destruct (for_each f l) as [ys'|] eqn:Hl; simpl.
      * split.
        -- intros [= <-]. constructor; [done|]. by apply IH.
        -- inversion 1 as [|? y' ? ys'' Hy Hys]; subst.
           apply IH in Hys. congruence.
      * split; [done|].
        inversion 1 as [|? y' ? ys'' Hy Hys]; subst.
        apply IH in Hys. done.
    + split; [done|]. inversion 1; congruence.
Qed.

(** ** The traversal *)

Lemma det_views_cons (obs : Observation) (data : Data) (det : string) :
  det_views (obs :: data) det
  = (if bool_decide (det ∈ local_detectors obs)
     then (λ view, (obs, view)) <$> views obs else [])
    ++ det_views data det.
Proof. reflexivity. Qed.

Lemma total_samples_cons (obs : Observation) (data : Data) (det : string) :
  total_samples (obs :: data) det
  = (if bool_decide (det ∈ local_detectors obs)
     then sum_list (length ∘ stored det <$> views obs) else 0)
    + total_samples data det.
Proof.
  unfold total_samples, det_segments. rewrite det_views_cons.
  rewrite !fmap_app, sum_list_with_app. f_equal.
  case_bool_decide; [|done]. by rewrite <-!list_fmap_compose.
Qed.

(** ** Calibration *)

Lemma stored_Some (det : string) (view : View) (seg : list R) :
  det_data_data view !! det = Some seg → stored det view = seg.
Proof. intros H. unfold stored. by rewrite H. Qed.

Lemma calibrate_view_step (det : string) (epsilon : R) (view : View)
  (seg : list R) (offset : nat) (dt : Np.dtype) (buf : list R) :
  det_data_data view !! det = Some seg →
  calibrate_view det epsilon (offset, Np.VArr (Np.mk_ndarray dt buf)) view
  = Ok (offset + length seg,
        Np.VArr (Np.mk_ndarray dt
          (Np.scale_slice offset (length seg) (2 / (1 + epsilon)) buf))).
Proof. intros H. unfold calibrate_view. by rewrite H. Qed.

Lemma calibrate_views_scale (det : string) (epsilon : R) (vs : list View)
  (offset : nat) (dt : Np.dtype) (buf : list R) :
  Forall (λ view, is_Some (det_data_data view !! det)) vs →
  fold_each (calibrate_view det epsilon)
            (offset, Np.VArr (Np.mk_ndarray dt buf)) vs
  = Ok (offset + sum_list (length ∘ stored det <$> vs),
        Np.VArr (Np.mk_ndarray dt
          (Np.scale_slice offset (sum_list (length ∘ stored det <$> vs))
                          (2 / (1 + epsilon)) buf))).
Proof.
  revert offset buf. induction vs as [|view vs IH]; intros offset buf Hvs.
  - simpl. by rewrite Nat.add_0_r, scale_slice_nothing.
  - inversion Hvs as [|? ? [seg Hseg] Hvs']; subst.
    cbn [fold_each]. rewrite (calibrate_view_step _ _ _ seg) by done. cbn.
    rewrite IH by done.
    rewrite (stored_Some _ _ seg) by done.
    rewrite scale_slice_compose. do 2 f_equal. lia.
Qed.

Lemma calibrate_obs_local (det : string) (epsilon : R) (obs : Observation)
  (st : nat * Np.value) :
  det ∈ local_detectors obs →
  _get_epsilon (focalplane obs) det = Ok epsilon →
  calibrate_obs det st obs = fold_each (calibrate_view det epsilon) st (views obs).
Proof.
  intros Hlocal Heps. unfold calibrate_obs.
  by rewrite bool_decide_true, Heps.
Qed.

Lemma calibrate_obs_skip (det : string) (obs : Observation)
  (st : nat * Np.value) :
  det ∉ local_detectors obs → calibrate_obs det st obs = Ok st.
Proof. intros Hlocal. unfold calibrate_obs. by rewrite bool_decide_false. Qed.

Lemma calibrate_data_scale (det : string) (epsilon : R) (data : Data)
  (offset : nat) (dt : Np.dtype) (buf : list R) :
  det_data_ensured data det →
  Forall (λ obs, det ∈ local_detectors obs →
                 _get_epsilon (focalplane obs) det = Ok epsilon) data →
  fold_each (calibrate_obs det)
            (offset, Np.VArr (Np.mk_ndarray dt buf)) data
  = Ok (offset + total_samples data det,
        Np.VArr (Np.mk_ndarray dt
          (Np.scale_slice offset (total_samples data det)
                          (2 / (1 + epsilon)) buf))).
Proof.
  revert offset buf. induction data as [|obs data IH]; intros offset buf Hens Heps.
  - simpl. unfold total_samples. simpl.
    by rewrite Nat.add_0_r, scale_slice_nothing.
  - inversion Heps as [|? ? Hobs Heps']; subst.
    unfold det_data_ensured in Hens. rewrite det_views_cons in Hens.
    apply Forall_app in Hens as [Hhere Hrest].
    rewrite total_samples_cons. cbn [fold_each].
    case_bool_decide as Hlocal.
    + rewrite (calibrate_obs_local _ epsilon) by auto.
      rewrite calibrate_views_scale.
      2:{ apply Forall_forall. intros view Hview.
          rewrite Forall_forall in Hhere. apply (Hhere (obs, view)).
          apply list_elem_of_fmap. eauto. }
      cbn. rewrite IH by done.
      rewrite scale_slice_compose. do 2 f_equal. lia.
    + rewrite calibrate_obs_skip by done. cbn. by rewrite IH.
Qed.

(** C2: when calibration is disabled or the beam reports [normalized()],
    [calibrate_signal] leaves the buffer as it is, whatever the focal plane
    says about epsilon; otherwise, on a buffer that has one sample per stored
    sample of the detector, it multiplies every sample by [2 / (1 + epsilon)],
    where epsilon is the 'pol_leakage' entry of the detector's focal-plane
    row and 0 when the row has no such entry, in which case the factor
    is 2. *)
Theorem C2_calibrate_signal {Beam : Type} (normalized : Beam → bool)
  (self : Traits) (data : Data) (det : string) (beam : Beam) :
  (negb (calibrate self) || normalized beam = true →
   ∀ convolved_data,
     calibrate_signal normalized self data det beam convolved_data
     = Ok convolved_data)
  ∧ (∀ epsilon dt buf,
       calibrate self = true → normalized beam = false →
       det_data_ensured data det →
       Forall (λ obs, det ∈ local_detectors obs →
                      _get_epsilon (focalplane obs) det = Ok epsilon) data →
       length buf = total_samples data det →
       calibrate_signal normalized self data det beam
                        (Np.VArr (Np.mk_ndarray dt buf))
       = Ok (Np.VArr (Np.mk_ndarray dt
               ((λ x, x * (2 / (1 + epsilon)))%R <$> buf))))
  ∧ (∀ fp props,
       fp !! det = Some props →
       (∀ epsilon, col_pol_leakage props = Some epsilon →
                   _get_epsilon fp det = Ok epsilon)
       ∧ (col_pol_leakage props = None →
          _get_epsilon fp det = Ok 0%R ∧ (2 / (1 + 0) = 2)%R)).
Proof.
  split_and!.
  - intros Hskip cd. unfold calibrate_signal. by rewrite Hskip.
  - intros epsilon dt buf Hcal Hnorm Hens Heps Hlen.
    unfold calibrate_signal. rewrite Hcal, Hnorm. cbn.
    rewrite (calibrate_data_scale _ epsilon) by done. cbn.
    by rewrite scale_slice_whole by lia.
  - intros fp props Hdet. split.
    + intros epsilon Hcol. by eapply _get_epsilon_column.
    + intros Hcol. split; [by eapply _get_epsilon_default|lra].
Qed.

Lemma C2_calibrate_signal_witness :
  calibrate_signal (λ _ : unit, false) plain_traits two_views "det0" ()
                   (Np.VArr (Np.mk_ndarray Np.float64 [1; 3; 5]%R))
  = Ok (Np.VArr (Np.mk_ndarray Np.float64
          ((λ x, x * (2 / (1 + 0)))%R <$> [1; 3; 5]%R))).
Proof.
  apply (proj1 (proj2 (C2_calibrate_signal (λ _ : unit, false) plain_traits
                         two_views "det0" ()))).
  - reflexivity.
  - reflexivity.
  - unfold det_data_ensured. repeat constructor; by eexists.
  - repeat constructor.
  - reflexivity.
Defined.

(** ** Accumulation *)

Lemma broadcast_to_fail {A} (n : nat) (b : list A) :
  length b ≠ n → length b ≠ 1 → Np.broadcast_to n b = Raise Np.shape_error.
Proof.
  intros Hn H1. unfold Np.broadcast_to. rewrite decide_False by done.
  by destruct b as [|x [|y b]].
Qed.

Lemma slice_length_inside {A} (lo n : nat) (a : list A) :
  lo + n ≤ length a → length (Np.slice lo n a) = n.
Proof. intros H. unfold Np.slice. rewrite length_take, length_drop. lia. Qed.

Lemma slice_length_short {A} (lo n : nat) (a : list A) :
  lo ≤ length a < lo + n → length (Np.slice lo n a) = length a - lo.
Proof. intros H. unfold Np.slice. rewrite length_take, length_drop. lia. Qed.

Lemma stored_accumulated (det : string) (view : View) (seg : list R) :
  stored det (accumulated det view seg) = zip_with Rplus (stored det view) seg.
Proof. unfold accumulated, stored at 1. simpl. by rewrite lookup_insert_eq. Qed.

Lemma save_view_inside (det : string) (buf : list R) (offset : nat)
  (view : View) :
  is_Some (det_data_data view !! det) →
  offset + length (stored det view) ≤ length buf →
  save_view det (Np.VArr (Np.mk_ndarray Np.float64 buf)) offset view
  = Ok (offset + length (stored det view),
        accumulated det view (Np.slice offset (length (stored det view)) buf)).
Proof.
  intros [seg Hseg] Hlen. rewrite (stored_Some _ _ seg) in * by done.
  unfold save_view. rewrite Hseg. cbn.
  rewrite inplace_same by (by apply slice_length_inside). cbn.
  unfold accumulated. by rewrite (stored_Some _ _ seg).
Qed.

Lemma save_view_short (det : string) (buf : list R) (offset : nat)
  (view : View) :
  is_Some (det_data_data view !! det) →
  offset ≤ length buf < offset + length (stored det view) →
  length buf - offset ≠ 1 →
  save_view det (Np.VArr (Np.mk_ndarray Np.float64 buf)) offset view
  = Raise Np.shape_error.
Proof.
  intros [seg Hseg] Hlen Hone. rewrite (stored_Some _ _ seg) in * by done.
  unfold save_view. rewrite Hseg. cbn. unfold Np.inplace.
  rewrite broadcast_to_fail; [done| |];
    rewrite slice_length_short by done; lia.
Qed.

Lemma save_views_app (det : string) (cd : Np.value) (offset : nat)
  (vs1 vs2 : list View) :
  save_views det cd offset (vs1 ++ vs2)
  = '(offset, vs1') ← save_views det cd offset vs1;
    '(offset, vs2') ← save_views det cd offset vs2;
    Ok (offset, vs1' ++ vs2').
Proof.
  revert offset. induction vs1 as [|view vs1 IH]; intros offset; cbn.
  - by destruct (save_views det cd offset vs2) as [[??]|].
  - destruct (save_view det cd offset view) as [[offset1 view']|]; cbn; [|done].
    rewrite IH.
    destruct (save_views det cd offset1 vs1) as [[offset2 vs1']|]; cbn; [|done].
    by destruct (save_views det cd offset2 vs2) as [[??]|].
Qed.

(** A buffer that covers every visited view is consumed run by run. *)
Lemma save_views_inside (det : string) (buf : list R) (vs : list View)
  (offset : nat) :
  Forall (λ view, is_Some (det_data_data view !! det)) vs →
  offset + sum_list (length ∘ stored det <$> vs) ≤ length buf →
  save_views det (Np.VArr (Np.mk_ndarray Np.float64 buf)) offset vs
  = Ok (offset + sum_list (length ∘ stored det <$> vs),
        zip_with (accumulated det) vs
                 (reshape (length ∘ stored det <$> vs) (drop offset buf))).
Proof.
  revert offset. induction vs as [|view vs IH]; intros offset Hens Hlen.
  - cbn. by rewrite Nat.add_0_r.
  - inversion Hens as [|? ? Hview Hens']; subst.
    rewrite fmap_cons in Hlen. cbn in Hlen.
    cbn [save_views]. rewrite save_view_inside by (done || lia). cbn.
    rewrite IH by (done || lia). cbn.
    rewrite drop_drop. do 2 f_equal. lia.
Qed.

Lemma save_views_length (det : string) (cd : Np.value) (vs vs' : list View)
  (offset offset' : nat) :
  save_views det cd offset vs = Ok (offset', vs') → length vs' = length vs.
Proof.
  revert offset vs'. induction vs as [|view vs IH]; intros offset vs'; cbn.
  - by intros [= <- <-].
  - destruct (save_view det cd offset view) as [[o1 view']|]; cbn; [|done].
    destruct (save_views det cd o1 vs) as [[o2 vs'']|] eqn:Hvs; cbn; [|done].
    intros [= <- <-]. cbn. f_equal. by eapply IH.
Qed.

(** The nested loops of [save] visit the views of [det_views] one after the
    other. *)
Lemma save_obs_flat (det : string) (cd : Np.value) (data : Data)
  (offset : nat) :
  save_obs det cd offset data
  = '(offset, vs) ← save_views det cd offset ((det_views data det).*2);
    Ok (offset, put_views det data vs).
Proof.
  revert offset. induction data as [|obs data IH]; intros offset; [done|].
  rewrite det_views_cons, fmap_app. cbn [save_obs put_views].
  rewrite save_views_app. case_bool_decide as Hlocal.
  - rewrite <-list_fmap_compose, list_fmap_id.
    destruct (save_views det cd offset (views obs)) as [[o1 v1]|] eqn:Hv1;
      cbn; [|done].
    apply save_views_length in Hv1. rewrite IH.
    destruct (save_views det cd o1 _) as [[o2 v2]|]; cbn; [|done].
    by rewrite <-Hv1, take_app_length, drop_app_length.
  - cbn. rewrite IH. by destruct (save_views det cd offset _) as [[o2 v2]|].
Qed.

Lemma det_views_put_views (det : string) (data : Data) (vs : list View) :
  length vs = length (det_views data det) →
  (det_views (put_views det data vs) det).*2 = vs.
Proof.
  revert vs. induction data as [|obs data IH]; intros vs Hlen.
  - by destruct vs.
  - rewrite det_views_cons, length_app in Hlen. cbn [put_views].
    case_bool_decide as Hlocal.
    + rewrite length_fmap in Hlen.
      rewrite det_views_cons. cbn [local_detectors set_views views].
      rewrite bool_decide_true by done.
      rewrite fmap_app, <-list_fmap_compose, list_fmap_id.
      rewrite IH by (rewrite length_drop; lia).
      apply take_drop.
    + rewrite det_views_cons, bool_decide_false by done. cbn.
      apply IH. cbn in Hlen. lia.
Qed.

Lemma stored_zip_accumulated (det : string) (vs : list View)
  (segs : list (list R)) :
  stored det <$> zip_with (accumulated det) vs segs
  = zip_with (zip_with Rplus) (stored det <$> vs) segs.
Proof.
  revert segs. induction vs as [|view vs IH]; intros [|seg segs]; try done.
  cbn. by rewrite stored_accumulated, IH.
Qed.

Lemma zip_with_Rplus_zeros (zeros seg : list R) :
  Forall (λ x, x = 0%R) zeros → length seg = length zeros →
  zip_with Rplus zeros seg = seg.
Proof.
  intros Hz. revert seg. induction Hz as [|z zeros -> _ IH]; intros [|x seg] Hlen;
    try done.
  cbn. rewrite IH by (cbn in Hlen; lia). f_equal. lra.
Qed.

Lemma zip_with_zero_segments (segs : list (list R)) (buf : list R) :
  Forall (Forall (λ x, x = 0%R)) segs →
  sum_list (length <$> segs) ≤ length buf →
  zip_with (zip_with Rplus) segs (reshape (length <$> segs) buf)
  = reshape (length <$> segs) buf.
Proof.
  intros Hz. revert buf. induction Hz as [|seg segs Hseg _ IH]; intros buf Hlen;
    [done|].
  rewrite fmap_cons in *. cbn in *.
  rewrite zip_with_Rplus_zeros by (done || rewrite length_take; lia).
  rewrite IH by (rewrite length_drop; lia). done.
Qed.

Lemma det_views_ensured (data : Data) (det : string) :
  det_data_ensured data det →
  Forall (λ view, is_Some (det_data_data view !! det)) (det_views data det).*2.
Proof. intros H. by apply Forall_fmap. Qed.

Lemma det_segments_flat (data : Data) (det : string) :
  det_segments data det = stored det <$> (det_views data det).*2.
Proof. unfold det_segments. by rewrite <-list_fmap_compose. Qed.

Lemma total_samples_flat (data : Data) (det : string) :
  total_samples data det
  = sum_list (length ∘ stored det <$> (det_views data det).*2).
Proof.
  unfold total_samples. rewrite det_segments_flat.
  by rewrite <-list_fmap_compose.
Qed.

(** What [save] does with a buffer that covers every visited view. *)
Lemma save_inside (data : Data) (det : string) (buf : list R) :
  det_data_ensured data det →
  total_samples data det ≤ length buf →
  ∃ data',
    save data det (Np.VArr (Np.mk_ndarray Np.float64 buf)) = Ok data'
    ∧ det_segments data' det
      = zip_with (zip_with Rplus) (det_segments data det)
                 (reshape (length <$> det_segments data det) buf).
Proof.
  intros Hens Hlen. rewrite total_samples_flat in Hlen.
  eexists. unfold save. rewrite save_obs_flat.
  rewrite save_views_inside by (by apply det_views_ensured || done).
  cbn. split; [done|].
  rewrite (det_segments_flat (put_views _ _ _)), det_views_put_views.
  2:{ rewrite length_zip_with, length_reshape, !length_fmap. lia. }
  rewrite stored_zip_accumulated, !det_segments_flat.
  by rewrite (list_fmap_compose (stored det) length).
Qed.

(** C5: [save] adds each contiguous run of the flat buffer to the stored
    samples of the view it belongs to ([view[det] += segment]), in traversal
    order, moving on by each view's sample count; written into
    zero-initialised storage, the views read back in traversal order hold
    the buffer's runs, and joined they are the buffer. *)
Theorem C5_save_accumulates (data : Data) (det : string) (buf : list R) :
  det_data_ensured data det →
  length buf = total_samples data det →
  ∃ data',
    save data det (Np.VArr (Np.mk_ndarray Np.float64 buf)) = Ok data'
    ∧ det_segments data' det
      = zip_with (zip_with Rplus) (det_segments data det)
                 (reshape (length <$> det_segments data det) buf)
    ∧ (Forall (Forall (λ x, x = 0%R)) (det_segments data det) →
       det_segments data' det = reshape (length <$> det_segments data det) buf
       ∧ mjoin (det_segments data' det) = buf).
Proof.
  intros Hens Hlen.
  destruct (save_inside data det buf) as (data' & Hsave & Hsegs); [done|lia|].
  exists data'. split_and!; [done..|].
  intros Hzero. rewrite Hsegs.
  rewrite zip_with_zero_segments by (done || unfold total_samples in Hlen; lia).
  split; [done|]. apply join_reshape. by rewrite Hlen.
Qed.

Lemma C5_save_accumulates_witness :
  ∃ data',
    save two_views "det0" (Np.VArr (Np.mk_ndarray Np.float64 [1; 3; 5]%R))
    = Ok data'
    ∧ det_segments data' "det0" = [[1]; [3; 5]]%R.
Proof.
  destruct (C5_save_accumulates two_views "det0" [1; 3; 5]%R)
    as (data' & Hsave & _ & Hzero).
  - unfold det_data_ensured. repeat constructor; by eexists.
  - reflexivity.
  - exists data'. split; [exact Hsave|].
    destruct Hzero as [-> _]; [|reflexivity].
    repeat constructor.
Defined.

(** C6 (as amended): [save] has no length check of its own.  A buffer at
    least as long as the detector's views together is accepted, and what is
    left over is ignored; a buffer that runs out inside a view makes numpy's
    in-place addition fail with its shape [ValueError], unless exactly one
    buffer sample is left for that view. *)
Theorem C6_save_length_mismatch (data : Data) (det : string) (buf : list R) :
  det_data_ensured data det →
  (total_samples data det ≤ length buf →
   ∃ data', save data det (Np.VArr (Np.mk_ndarray Np.float64 buf)) = Ok data')
  ∧ (∀ segs1 seg segs2,
       det_segments data det = segs1 ++ seg :: segs2 →
       sum_list (length <$> segs1) ≤ length buf
         < sum_list (length <$> segs1) + length seg →
       length buf - sum_list (length <$> segs1) ≠ 1 →
       save data det (Np.VArr (Np.mk_ndarray Np.float64 buf))
       = Raise Np.shape_error).
Proof.
  intros Hens. split.
  - intros Hlen.
    destruct (save_inside data det buf) as (data' & Hsave & _); eauto.
  - intros segs1 seg segs2 Hsegs Hlen Hone.
    apply det_views_ensured in Hens.
    rewrite det_segments_flat in Hsegs.
    apply fmap_app_inv in Hsegs as (vs1 & vs' & -> & Hvs' & Hflat).
    symmetry in Hvs'.
    apply fmap_cons_inv in Hvs' as (view & vs2 & -> & -> & ->).
    unfold save. rewrite save_obs_flat, Hflat, save_views_app.
    rewrite Hflat in Hens. apply Forall_app in Hens as [Hens1 Hens2].
    inversion Hens2 as [|? ? Hview _]; subst.
    rewrite <-list_fmap_compose in Hlen, Hone.
    rewrite save_views_inside by (done || lia). cbn.
    rewrite save_view_short by (done || lia). done.
Qed.

Lemma C6_save_length_mismatch_witness :
  (∃ data', save two_views "det0"
                 (Np.VArr (Np.mk_ndarray Np.float64 [1; 3; 5; 7]%R)) = Ok data')
  ∧ save two_views "det0" (Np.VArr (Np.mk_ndarray Np.float64 [1]%R))
    = Raise Np.shape_error.
Proof.
  assert (det_data_ensured two_views "det0") as Hens.
  { unfold det_data_ensured. repeat constructor; by eexists. }
  split.
  - apply (proj1 (C6_save_length_mismatch two_views "det0" [1; 3; 5; 7]%R Hens)).
    vm_compute; lia.
  - apply (proj2 (C6_save_length_mismatch two_views "det0" [1]%R Hens)
             [[0]%R] [0; 0]%R []).
    + reflexivity.
    + vm_compute; lia.
    + vm_compute; lia.
Defined.

(** C6 as stated fails: the buffer is longer than the views in the first
    case and shorter in the second, and [save] completes in both. *)
Lemma C6_counterexample :
  (length [1; 3; 5; 7]%R ≠ total_samples two_views "det0"
   ∧ is_ok (save two_views "det0"
                 (Np.VArr (Np.mk_ndarray Np.float64 [1; 3; 5; 7]%R))) = true)
  ∧ (length [7]%R ≠ total_samples one_view "det0"
     ∧ is_ok (save one_view "det0"
                   (Np.VArr (Np.mk_ndarray Np.float64 [7]%R))) = true).
Proof. split; (split; [vm_compute; lia|reflexivity]). Qed.

(** ** The detector scheduler *)

Lemma foldl_union_list (X : gset string) (sets : list (gset string)) :
  foldl (λ my_dets some_dets, my_dets ∪ some_dets) X sets = X ∪ ⋃ sets.
Proof.
  revert X. induction sets as [|s sets IH]; intros X; cbn.
  - by rewrite (right_id_L ∅ (∪)).
  - by rewrite IH, (assoc_L (∪)).
Qed.

Lemma sorted_elem_of (s : gset string) (d : string) : d ∈ sorted s ↔ d ∈ s.
Proof.
  unfold sorted. rewrite merge_sort_Permutation. apply elem_of_elements.
Qed.

Lemma sorted_NoDup (s : gset string) : NoDup (sorted s).
Proof.
  unfold sorted. rewrite merge_sort_Permutation. apply NoDup_elements.
Qed.

Lemma sorted_Sorted (s : gset string) : Sorted String.le (sorted s).
Proof. apply (Sorted_merge_sort _). Qed.

Section SchedulerProperties.

Context (select_local_detectors : Observation → option (list string) → list string).

Lemma before_bcast_root (detectors : option (list string)) (world : list Data) :
  0 < length world →
  before_bcast select_local_detectors detectors world 0
  = Some (DList (sorted (all_local_dets select_local_detectors detectors world))).
Proof.
  destruct world as [|data world]; cbn; [lia|]. intros _.
  unfold before_bcast, all_local_dets, comm_gather. cbn.
  rewrite !decide_True by done. cbn.
  rewrite foldl_union_list. do 3 f_equal.
  by rewrite (idemp_L (∪)).
Qed.

Lemma before_bcast_is_Some (detectors : option (list string))
  (world : list Data) (rank : nat) :
  rank < length world → is_Some (before_bcast select_local_detectors detectors world rank).
Proof.
  intros Hrank. destruct rank as [|rank].
  - rewrite before_bcast_root by done. eauto.
  - unfold before_bcast.
    destruct (lookup_lt_is_Some_2 world (S rank) Hrank) as [data ->]. cbn. eauto.
Qed.

Lemma _get_all_detectors_sorted (detectors : option (list string))
  (world : list Data) (rank : nat) :
  rank < length world →
  _get_all_detectors select_local_detectors detectors world rank
  = Some (DList (sorted (all_local_dets select_local_detectors detectors world))).
Proof.
  intros Hrank. unfold _get_all_detectors.
  destruct (lookup_lt_is_Some_2 world rank Hrank) as [data ->]. cbn.
  destruct (mapM (before_bcast select_local_detectors detectors world) (seq 0 (length world)))
    as [sent|] eqn:Hsent.
  - cbn. apply mapM_Some in Hsent.
    destruct world as [|data0 world]; [cbn in Hrank; lia|].
    cbn [length seq] in Hsent.
    inversion Hsent as [|? y ? sent' Hroot _]; subst.
    unfold comm_bcast. cbn. rewrite <-Hroot.
    apply before_bcast_root. cbn. lia.
  - exfalso. apply eq_None_not_Some in Hsent. apply Hsent.
    apply mapM_is_Some. apply Forall_forall. intros r Hr.
    apply elem_of_seq in Hr. apply before_bcast_is_Some. lia.
Qed.

(** C7: on every process [_get_all_detectors] returns the same list: the
    union of the sets the processes build locally, without repetition and in
    the lexicographic order of the names; two ways of spreading the same
    detectors over processes give the same list. *)
Theorem C7_get_all_detectors_deterministic (detectors : option (list string))
  (world : list Data) (rank : nat) :
  rank < length world →
  _get_all_detectors select_local_detectors detectors world rank
  = Some (DList (sorted (all_local_dets select_local_detectors detectors world)))
  ∧ Sorted String.le (sorted (all_local_dets select_local_detectors detectors world))
  ∧ NoDup (sorted (all_local_dets select_local_detectors detectors world))
  ∧ (∀ det, det ∈ sorted (all_local_dets select_local_detectors detectors world)
            ↔ ∃ data, data ∈ world ∧ det ∈ local_dets select_local_detectors detectors data)
  ∧ (∀ world' rank',
       rank' < length world' →
       all_local_dets select_local_detectors detectors world' = all_local_dets select_local_detectors detectors world →
       _get_all_detectors select_local_detectors detectors world' rank'
       = _get_all_detectors select_local_detectors detectors world rank).
Proof.
  intros Hrank. split_and!.
  - by apply _get_all_detectors_sorted.
  - apply sorted_Sorted.
  - apply sorted_NoDup.
  - intros det. rewrite sorted_elem_of. unfold all_local_dets.
    rewrite elem_of_union_list. split.
    + intros (s & Hs & Hdet). apply list_elem_of_fmap in Hs as (data & -> & Hdata).
      eauto.
    + intros (data & Hdata & Hdet). exists (local_dets select_local_detectors detectors data).
      split; [|done]. apply list_elem_of_fmap. eauto.
  - intros world' rank' Hrank' Hsame.
    rewrite !_get_all_detectors_sorted by done. by rewrite Hsame.
Qed.

End SchedulerProperties.

Lemma C7_get_all_detectors_deterministic_witness :
  _get_all_detectors select_all None world_a 1 = Some (DList ["d1"; "d2"; "d3"])
  ∧ _get_all_detectors select_all None world_b 2
    = _get_all_detectors select_all None world_a 1.
Proof.
  destruct (C7_get_all_detectors_deterministic select_all None world_a 1)
    as (Hlist & _ & _ & _ & Hsame).
  - cbn. lia.
  - split.
    + rewrite Hlist. vm_compute. reflexivity.
    + apply Hsame.
      * cbn. lia.
      * vm_compute. reflexivity.
Defined.

(** ** Pointing extraction *)

Section PointingProperties.

Context (to_angles : quat → R * R * R).

Lemma view_pointing_inv (self : Traits) (fp : gmap string Row) (det : string)
  (view : View) (theta phi psi psi_pol : list R) :
  view_pointing to_angles self fp det view = Ok (theta, phi, psi, psi_pol) →
  ∃ flags quats masked eff,
    view_flags self det view = Ok flags
    ∧ quats_data view !! det = Some quats
    ∧ masked_quats flags quats = Ok masked
    ∧ effective_psi_pol self fp det = Ok eff
    ∧ theta = angle_theta <$> (to_angles <$> masked)
    ∧ phi = angle_phi <$> (to_angles <$> masked)
    ∧ psi = (λ x, x - eff)%R <$> (angle_psi <$> (to_angles <$> masked))
    ∧ psi_pol_array self view (length psi) eff = Ok psi_pol.
Proof.
  unfold view_pointing. intros H.
  destruct (view_flags self det view) as [flags|]; cbn in H; [|done].
  destruct (quats_data view !! det) as [quats|]; cbn in H; [|done].
  fold (masked_quats flags quats) in H.
  destruct (masked_quats flags quats) as [masked|] eqn:Hmask; cbn in H;
    [|done].
  destruct (effective_psi_pol self fp det) as [eff|]; cbn in H; [|done].
  fold (psi_pol_array self view
          (length ((λ x, x - eff)%R <$> (angle_psi <$> (to_angles <$> masked))))
          eff) in H.
  destruct (psi_pol_array self view _ eff) as [pp|] eqn:Hpp; cbn in H; [|done].
  injection H as <- <- <- <-.
  exists flags, quats, masked, eff. split_and!; done.
Qed.

Lemma masked_quats_length (flags : option (list Z)) (quats masked : list quat) :
  masked_quats flags quats = Ok masked → length masked = length quats.
Proof.
  destruct flags as [flags|]; cbn.
  - apply mask_assign_length.
  - by intros [= <-].
Qed.

Lemma masked_quats_flagged (flags : list Z) (quats masked : list quat)
  (i : nat) (f : Z) :
  masked_quats (Some flags) quats = Ok masked →
  flags !! i = Some f → f ≠ 0%Z →
  masked !! i = Some nullquat.
Proof.
  cbn. intros Hmask Hf Hnz.
  eapply mask_assign_lookup_true; [done|].
  unfold nonzero. rewrite list_lookup_fmap, Hf. cbn.
  by rewrite (proj2 (Z.eqb_neq f 0)).
Qed.

Lemma psi_pol_array_length (self : Traits) (view : View) (n : nat) (eff : R)
  (psi_pol : list R) :
  psi_pol_array self view n eff = Ok psi_pol → length psi_pol = n.
Proof.
  unfold psi_pol_array. destruct (hwp_angle self).
  - intros H. apply inplace_length in H.
    by rewrite H, length_fmap, length_replicate.
  - intros [= <-]. by rewrite length_fmap, length_replicate.
Qed.

Lemma psi_pol_array_constant (self : Traits) (view : View) (n : nat) (eff : R)
  (psi_pol : list R) :
  hwp_angle self = None →
  psi_pol_array self view n eff = Ok psi_pol → psi_pol = replicate n eff.
Proof.
  unfold psi_pol_array. intros ->. intros [= <-].
  rewrite fmap_replicate. f_equal. lra.
Qed.

Lemma psi_pol_array_hwp (self : Traits) (view : View) (n : nat) (eff : R)
  (psi_pol : list R) (i : nat) (h : R) :
  is_Some (hwp_angle self) →
  psi_pol_array self view n eff = Ok psi_pol →
  i < n → hwp_angle_data view !! i = Some h →
  psi_pol !! i = Some (eff + 2 * h)%R.
Proof.
  unfold psi_pol_array. intros [key ->] Hpp Hi Hh.
  replace (eff + 2 * h)%R with (Rplus (1 * eff) (2 * h)) by lra.
  eapply inplace_lookup; [done| |].
  - rewrite list_lookup_fmap, lookup_replicate_2 by done. done.
  - by rewrite list_lookup_fmap, Hh.
Qed.

(** The views [get_pointing] visits, each with its four arrays. *)
Lemma obs_pointing_parts (self : Traits) (det : string) (data : Data)
  (per_obs : list (list (list R * list R * list R * list R))) :
  for_each (obs_pointing to_angles self det) data = Ok per_obs →
  Forall2 (λ ov part,
             view_pointing to_angles self (focalplane ov.1) det ov.2 = Ok part)
          (det_views data det) (mjoin per_obs).
Proof.
  revert per_obs. induction data as [|obs data IH]; intros per_obs; cbn.
  - intros [= <-]. constructor.
  - destruct (obs_pointing to_angles self det obs) as [parts|] eqn:Hobs;
      cbn; [|done].
    destruct (for_each _ data) as [rest|]; cbn; [|done].
    intros [= <-]. change (mjoin (parts :: rest)) with (parts ++ mjoin rest).
    fold (det_views data det). apply Forall2_app; [|by apply IH].
    unfold obs_pointing in Hobs. case_bool_decide.
    + apply for_each_Forall2 in Hobs. by apply Forall2_fmap_l.
    + injection Hobs as <-. constructor.
Qed.

Lemma get_pointing_parts (self : Traits) (data : Data) (det : string)
  (theta phi psi psi_pol : list R) :
  get_pointing to_angles self data det = Ok (theta, phi, psi, psi_pol) →
  ∃ parts,
    Forall2 (λ ov part,
               view_pointing to_angles self (focalplane ov.1) det ov.2 = Ok part)
            (det_views data det) parts
    ∧ theta = hstack (part_theta <$> parts)
    ∧ phi = hstack (part_phi <$> parts)
    ∧ psi = hstack (part_psi <$> parts)
    ∧ psi_pol = hstack (part_psi_pol <$> parts).
Proof.
  unfold get_pointing. intros H.
  destruct (for_each _ data) as [per_obs|] eqn:Hobs; cbn in H; [|done].
  injection H as <- <- <- <-.
  exists (mjoin per_obs). split_and!; try done.
  by apply obs_pointing_parts.
Qed.

Lemma for_each_is_Ok {A B} (f : A → result B) (l : list A) :
  Forall (λ x, ∃ y, f x = Ok y) l → ∃ ys, for_each f l = Ok ys.
Proof.
  induction 1 as [|x l [y Hy] _ [ys IH]]; cbn; [eauto|].
  rewrite Hy, IH. cbn. eauto.
Qed.

Lemma view_flags_ready (self : Traits) (det : string) (view : View)
  (quats : list quat) :
  (apply_flags self = true → is_Some (shared_flags self) →
   length (shared_flags_data view) = length quats) →
  (apply_flags self = true → is_Some (det_flags self) →
   ∃ detflags, det_flags_data view !! det = Some detflags
               ∧ length detflags = length quats) →
  ∃ flags, view_flags self det view = Ok flags
           ∧ ∀ fl, flags = Some fl → length fl = length quats.
Proof.
  intros Hshared Hdet. unfold view_flags.
  destruct (apply_flags self); [|by exists None].
  destruct (shared_flags self) as [ks|], (det_flags self) as [kd|].
  - destruct Hdet as (detflags & -> & Hlen); [done..|]. cbn.
    rewrite inplace_same by (rewrite !length_fmap, Hshared; eauto).
    cbn. eexists. split; [done|]. intros fl [= <-].
    rewrite length_zip_with, !length_fmap, Hshared, Hlen by eauto. lia.
  - eexists. split; [done|]. intros fl [= <-].
    rewrite length_fmap. eauto.
  - destruct Hdet as (detflags & -> & Hlen); [done..|]. cbn.
    eexists. split; [done|]. intros fl [= <-]. by rewrite length_fmap.
  - by exists None.
Qed.

Lemma view_pointing_ready (self : Traits) (det : string)
  (ov : Observation * View) :
  dxx self = false → view_ready self det ov →
  ∃ part, view_pointing to_angles self (focalplane ov.1) det ov.2 = Ok part.
Proof.
  intros Hdxx [(props & q & Hprops & Hq) (quats & Hquats & Hs & Hd & Hh)].
  destruct (view_flags_ready self det ov.2 quats Hs Hd)
    as (flags & Hflags & Hlen).
  assert (∃ masked, masked_quats flags quats = Ok masked
                    ∧ length masked = length quats) as (masked & Hm & Hml).
  { destruct flags as [fl|]; cbn; [|eauto].
    unfold Np.mask_assign, nonzero.
    rewrite decide_True by (rewrite length_fmap; eauto).
    eexists. split; [done|].
    rewrite length_zip_with, length_fmap, (Hlen fl) by done. lia. }
  assert (effective_psi_pol self (focalplane ov.1) det
          = Ok (to_value q radian)) as Heff.
  { unfold effective_psi_pol, _get_psi_pol. rewrite Hprops, Hq, Hdxx. cbn.
    by destruct (in_colnames (col_psi_pol props)). }
  unfold view_pointing. rewrite Hflags. cbn. rewrite Hquats. cbn.
  fold (masked_quats flags quats). rewrite Hm. cbn. rewrite Heff. cbn.
  destruct (hwp_angle self) as [key|]; [|eauto].
  rewrite inplace_same; [cbn; eauto|].
  rewrite !length_fmap, length_replicate, Hml. eauto.
Qed.

Lemma get_pointing_ready (self : Traits) (data : Data) (det : string) :
  pointing_ready self data det →
  ∃ result, get_pointing to_angles self data det = Ok result.
Proof.
  intros [Hdxx Hviews]. unfold get_pointing.
  destruct (for_each_is_Ok (obs_pointing to_angles self det) data)
    as [per_obs ->]; [|cbn; eauto].
  induction data as [|obs data IH]; [constructor|].
  rewrite det_views_cons in Hviews. apply Forall_app in Hviews as [Hobs Hrest].
  constructor; [|by apply IH].
  unfold obs_pointing. case_bool_decide; [|eauto].
  apply for_each_is_Ok. apply Forall_forall. intros view Hview.
  apply (view_pointing_ready self det (obs, view)); [done|].
  rewrite Forall_forall in Hobs. apply Hobs.
  apply list_elem_of_fmap. eauto.
Qed.

End PointingProperties.

Section PointingClaims.

Context (to_angles : quat → R * R * R).

Lemma effective_psi_pol_dxx (self : Traits) (fp : gmap string Row)
  (det : string) :
  dxx self = true → ∃ e, effective_psi_pol self fp det = Raise e.
Proof.
  intros Hdxx. unfold effective_psi_pol. rewrite Hdxx.
  destruct (_get_psi_pol fp det); cbn; [|eauto].
  destruct (_get_psi_uv_raises fp det) as [e ->]. cbn. eauto.
Qed.

(** C3: with [dxx=False] the angle subtracted from psi is the detector's
    [psi_pol]; with [dxx=True] the code never gets to add [psi_uv], since
    [_get_psi_uv] raises on every focal plane, and [get_pointing] raises
    with it as soon as it visits a view. *)
Theorem C3_dxx_true_raises (self : Traits) (fp : gmap string Row)
  (det : string) (view : View) :
  (dxx self = false → effective_psi_pol self fp det = _get_psi_pol fp det)
  ∧ (dxx self = true →
     (∃ e, effective_psi_pol self fp det = Raise e)
     ∧ ∃ e, view_pointing to_angles self fp det view = Raise e)
  ∧ _get_psi_uv {[ "det0" := row_uv ]} "det0" = Raise (NameError "psipol")
  ∧ get_pointing to_angles dxx_traits uv_data "det0"
    = Raise (NameError "psipol").
Proof.
  split_and!.
  - intros Hdxx. unfold effective_psi_pol. rewrite Hdxx.
    by destruct (_get_psi_pol fp det).
  - intros Hdxx. split; [by apply effective_psi_pol_dxx|].
    destruct (effective_psi_pol_dxx self fp det Hdxx) as [e He].
    unfold view_pointing.
    destruct (view_flags self det view); cbn; [|eauto].
    destruct (quats_data view !! det); cbn; [|eauto].
    destruct (match _ with Some _ => _ | None => _ end); cbn; [|eauto].
    rewrite He. cbn. eauto.
  - reflexivity.
  - reflexivity.
Qed.

Lemma hstack_length_eq {A} (f g : A → list R) (parts : list A) :
  Forall (λ p, length (f p) = length (g p)) parts →
  length (hstack (f <$> parts)) = length (hstack (g <$> parts)).
Proof.
  intros Hlen. unfold hstack.
  rewrite !length_join, <-!list_fmap_compose. f_equal.
  by apply Forall_fmap_ext.
Qed.

Lemma Forall2_fmap_eq {A B C} (f : A → C) (g : B → C) (l : list A)
  (k : list B) :
  Forall2 (λ x y, f x = g y) l k → f <$> l = g <$> k.
Proof. induction 1; cbn; congruence. Qed.

(** C8: [get_pointing] returns on data that is ready for it, and the array
    [psi_pol] that it returns is as long as [psi] and has one entry per
    quaternion row of the views it visits; view by view, it holds the
    effective polarization angle in every entry when no HWP-angle stream is
    configured, and that angle plus twice the sample's HWP angle when one
    is. *)
Theorem C8_psi_pol_array (self : Traits) (data : Data) (det : string) :
  (pointing_ready self data det →
   ∃ result, get_pointing to_angles self data det = Ok result)
  ∧ ∀ theta phi psi psi_pol,
  get_pointing to_angles self data det = Ok (theta, phi, psi, psi_pol) →
  length psi_pol = length psi
  ∧ length psi_pol
    = sum_list ((λ ov, length (quat_rows det ov.2)) <$> det_views data det)
  ∧ ∃ parts,
      psi = hstack (part_psi <$> parts)
      ∧ psi_pol = hstack (part_psi_pol <$> parts)
      ∧ Forall2 (λ ov part, ∃ eff,
           effective_psi_pol self (focalplane ov.1) det = Ok eff
           ∧ length (part_psi part) = length (quat_rows det ov.2)
           ∧ length (part_psi_pol part) = length (part_psi part)
           ∧ (hwp_angle self = None →
              part_psi_pol part = replicate (length (part_psi part)) eff)
           ∧ (is_Some (hwp_angle self) →
              ∀ i h, i < length (part_psi part) →
                     hwp_angle_data ov.2 !! i = Some h →
                     part_psi_pol part !! i = Some (eff + 2 * h)%R))
          (det_views data det) parts.
Proof.
  split; [apply get_pointing_ready|].
  intros theta phi psi psi_pol Hget.
  apply get_pointing_parts in Hget as (parts & Hparts & _ & _ & -> & ->).
  assert (Forall2 (λ ov part, ∃ eff,
           effective_psi_pol self (focalplane ov.1) det = Ok eff
           ∧ length (part_psi part) = length (quat_rows det ov.2)
           ∧ length (part_psi_pol part) = length (part_psi part)
           ∧ (hwp_angle self = None →
              part_psi_pol part = replicate (length (part_psi part)) eff)
           ∧ (is_Some (hwp_angle self) →
              ∀ i h, i < length (part_psi part) →
                     hwp_angle_data ov.2 !! i = Some h →
                     part_psi_pol part !! i = Some (eff + 2 * h)%R))
          (det_views data det) parts) as Hviews.
  { eapply Forall2_impl; [exact Hparts|].
    intros [obs view] [[[th ph] ps] pp] Hview. cbn in *.
    apply view_pointing_inv in Hview
      as (flags & quats & masked & eff & _ & Hq & Hm & Heff & _ & _ & Hps & Hpp).
    exists eff. split_and!; [done|..].
    - apply masked_quats_length in Hm.
      unfold quat_rows, part_psi. rewrite Hq, Hps. cbn.
      rewrite !length_fmap. exact Hm.
    - by eapply psi_pol_array_length.
    - intros Hhwp. by eapply psi_pol_array_constant.
    - intros Hhwp i h Hi Hh. by eapply psi_pol_array_hwp. }
  split_and!; [| |eauto].
  - apply hstack_length_eq.
    eapply (Forall2_Forall_r _ (λ part, length (part_psi_pol part)
                                        = length (part_psi part)));
      [exact Hviews|].
    apply Forall_forall. intros ov _ part (eff & _ & _ & Hlen & _). done.
  - unfold hstack. rewrite length_join, <- list_fmap_compose. f_equal.
    symmetry. apply (Forall2_fmap_eq (λ ov, length (quat_rows det ov.2))
                                     (length ∘ part_psi_pol)).
    eapply Forall2_impl; [exact Hviews|].
    intros ov part (eff & _ & Hrows & Hlen & _). cbn. by rewrite Hlen, Hrows.
Qed.

Lemma view_flags_both (self : Traits) (det : string) (view : View)
  (ks kd : string) (flags : option (list Z)) :
  apply_flags self = true →
  shared_flags self = Some ks → det_flags self = Some kd →
  view_flags self det view = Ok flags →
  ∃ detflags fl,
    det_flags_data view !! det = Some detflags
    ∧ flags = Some fl
    ∧ ∀ i s d,
        shared_flags_data view !! i = Some s → detflags !! i = Some d →
        fl !! i = Some (Z.lor (Z.land s (shared_flag_mask self))
                              (Z.land d (det_flag_mask self))).
Proof.
  intros Happly Hshared Hdet. unfold view_flags.
  rewrite Happly, Hshared, Hdet.
  destruct (det_flags_data view !! det) as [detflags|]; cbn; [|done].
  destruct (Np.inplace _ _ _) as [fl|] eqn:Hfl; cbn; [|done].
  intros [= <-]. exists detflags, fl. split_and!; [done..|].
  intros i s d Hs Hd. eapply inplace_lookup; [done|..].
  - by rewrite list_lookup_fmap, Hs.
  - by rewrite list_lookup_fmap, Hd.
Qed.

Lemma view_flags_combined (self : Traits) (det : string) (view : View)
  (flags : option (list Z)) (i : nat) (mask : Z) :
  apply_flags self = true →
  view_flags self det view = Ok flags →
  combined_mask self det view i = Some mask → mask ≠ 0%Z →
  ∃ fl, flags = Some fl ∧ fl !! i = Some mask.
Proof.
  intros Happly Hflags Hmask Hnz.
  unfold combined_mask, masked_flag in Hmask.
  destruct (shared_flags self) as [ks|] eqn:Hshared,
           (det_flags self) as [kd|] eqn:Hdet.
  - destruct (view_flags_both self det view ks kd flags)
      as (detflags & fl & Hdf & -> & Hfl); [done..|].
    rewrite Hdf in Hmask. cbn in Hmask.
    destruct (shared_flags_data view !! i) as [s|] eqn:Hs; [|done].
    destruct (detflags !! i) as [d|] eqn:Hd; [|done].
    cbn in Hmask. injection Hmask as <-. exists fl. split; [done|].
    by apply Hfl.
  - unfold view_flags in Hflags. rewrite Happly, Hshared, Hdet in Hflags.
    injection Hflags as <-. cbn in Hmask.
    destruct (shared_flags_data view !! i) as [s|] eqn:Hs; [|done].
    cbn in Hmask. injection Hmask as <-. eexists. split; [done|].
    by rewrite list_lookup_fmap, Hs, Z.lor_0_r.
  - unfold view_flags in Hflags. rewrite Happly, Hshared, Hdet in Hflags.
    destruct (det_flags_data view !! det) as [detflags|]; [|done].
    cbn in Hflags, Hmask. injection Hflags as <-.
    destruct (detflags !! i) as [d|] eqn:Hd; [|done].
    cbn in Hmask. injection Hmask as <-. eexists. split; [done|].
    by rewrite list_lookup_fmap, Hd.
  - cbn in Hmask. by injection Hmask as <-.
Qed.

(** C4 (as amended): with flag application enabled, a sample is flagged
    when its combined mask (shared flag AND shared mask) OR (detector flag
    AND detector mask) is nonzero, a stream that is not configured adding
    nothing to it; for a flagged sample the returned theta and phi are
    those of the null quaternion (0,0,0,1) and the returned psi is the null
    quaternion's psi minus the effective polarization angle, whatever the
    sample's own quaternion; the arrays keep one entry per quaternion
    row. *)
Theorem C4_flagged_samples_nulled (self : Traits) (data : Data) (det : string)
  (theta phi psi psi_pol : list R) :
  apply_flags self = true →
  get_pointing to_angles self data det = Ok (theta, phi, psi, psi_pol) →
  length theta
  = sum_list ((λ ov, length (quat_rows det ov.2)) <$> det_views data det)
  ∧ length phi = length theta ∧ length psi = length theta
  ∧ ∃ parts,
      theta = hstack (part_theta <$> parts)
      ∧ phi = hstack (part_phi <$> parts)
      ∧ psi = hstack (part_psi <$> parts)
      ∧ Forall2 (λ ov part, ∃ eff,
           effective_psi_pol self (focalplane ov.1) det = Ok eff
           ∧ length (part_theta part) = length (quat_rows det ov.2)
           ∧ length (part_phi part) = length (quat_rows det ov.2)
           ∧ length (part_psi part) = length (quat_rows det ov.2)
           ∧ ∀ i mask,
               combined_mask self det ov.2 i = Some mask → mask ≠ 0%Z →
               part_theta part !! i = Some (angle_theta (to_angles nullquat))
               ∧ part_phi part !! i = Some (angle_phi (to_angles nullquat))
               ∧ part_psi part !! i
                 = Some (angle_psi (to_angles nullquat) - eff)%R)
          (det_views data det) parts.
Proof.
  intros Happly Hget.
  apply get_pointing_parts in Hget as (parts & Hparts & -> & -> & -> & _).
  assert (Forall2 (λ ov part,
            length (part_theta part) = length (quat_rows det ov.2)
            ∧ length (part_phi part) = length (part_theta part)
            ∧ length (part_psi part) = length (part_theta part))
          (det_views data det) parts) as Hlens.
  { eapply Forall2_impl; [exact Hparts|].
    intros [obs view] [[[th ph] ps] pp] Hview. cbn in *.
    apply view_pointing_inv in Hview
      as (flags & quats & masked & eff & _ & Hq & Hm & _ & -> & -> & -> & _).
    apply masked_quats_length in Hm.
    unfold quat_rows. rewrite Hq. cbn. rewrite !length_fmap. by rewrite Hm. }
  split_and!.
  - unfold hstack. rewrite length_join, <-list_fmap_compose. f_equal.
    symmetry. apply (Forall2_fmap_eq (λ ov, length (quat_rows det ov.2))
                                     (length ∘ part_theta)).
    eapply Forall2_impl; [exact Hlens|]. intros ov part (Hlen & _).
    cbn. by rewrite Hlen.
  - apply hstack_length_eq.
    eapply (Forall2_Forall_r _ (λ part, length (part_phi part)
                                        = length (part_theta part)));
      [exact Hlens|].
    apply Forall_forall. by intros ov _ part (_ & ? & _).
  - apply hstack_length_eq.
    eapply (Forall2_Forall_r _ (λ part, length (part_psi part)
                                        = length (part_theta part)));
      [exact Hlens|].
    apply Forall_forall. by intros ov _ part (_ & _ & ?).
  - exists parts. split_and!; [done..|].
    apply Forall2_same_length_lookup. split; [by eapply Forall2_length|].
    intros k [obs view] [[[th ph] ps] pp] Hov Hpart.
    pose proof (Forall2_lookup_lr _ _ _ _ _ _ Hlens Hov Hpart)
      as (Hlen & Hphi & Hpsi).
    pose proof (Forall2_lookup_lr _ _ _ _ _ _ Hparts Hov Hpart) as Hview.
    cbn in *.
    apply view_pointing_inv in Hview
      as (flags & quats & masked & eff & Hf & Hq & Hm & Heff & -> & -> & -> & _).
    exists eff. split_and!; [done|done|congruence|congruence|].
    intros i mask Hmask Hnz.
    destruct (view_flags_combined self det view flags i mask)
      as (fl & -> & Hfl); [done..|].
    assert (masked !! i = Some nullquat) as Hnull.
    { by eapply masked_quats_flagged. }
    unfold part_theta, part_phi, part_psi. cbn.
    rewrite !list_lookup_fmap, Hnull. done.
Qed.

End PointingClaims.

Lemma flagged_data_ready (self : Traits) :
  dxx self = false → pointing_ready self flagged_data "det0".
Proof.
  intros Hdxx. split; [done|]. constructor; [|constructor]. split.
  - eexists _, _. split; reflexivity.
  - eexists. split; [reflexivity|].
    split_and!; intros; try reflexivity.
    eexists. split; reflexivity.
Qed.

Lemma flagged_data_views :
  ∃ obs,
    det_views flagged_data "det0" = [(obs, flagged_view)]
    ∧ focalplane obs = {[ "det0" := row_pol_angle ]}.
Proof. eexists. split; reflexivity. Qed.

Lemma C8_psi_pol_array_witness :
  ∃ theta phi psi psi_pol,
    get_pointing sample_to_angles flag_traits flagged_data "det0"
    = Ok (theta, phi, psi, psi_pol)
    ∧ length psi_pol = 4
    ∧ psi_pol !! 2 = Some (1 + 2 * 2)%R.
Proof.
  destruct (proj1 (C8_psi_pol_array sample_to_angles flag_traits flagged_data
                     "det0") (flagged_data_ready flag_traits eq_refl))
    as [[[[theta phi] psi] psi_pol] Hget].
  exists theta, phi, psi, psi_pol. split; [exact Hget|].
  destruct (proj2 (C8_psi_pol_array sample_to_angles flag_traits flagged_data
                     "det0") theta phi psi psi_pol Hget)
    as (_ & Hlen & parts & _ & Hpol & Hviews).
  destruct flagged_data_views as (obs & Hdv & Hfp).
  rewrite Hdv in Hlen, Hviews.
  apply Forall2_cons_inv_l in Hviews as (part & parts' & Hpart & Hnil & ->).
  apply Forall2_nil_inv_l in Hnil as ->.
  destruct Hpart as (eff & Heff & Hrows & _ & _ & Hhwp).
  cbn [fst snd] in Heff, Hrows, Hhwp. rewrite Hfp in Heff.
  assert (effective_psi_pol flag_traits {[ "det0" := row_pol_angle ]} "det0"
          = Ok 1%R) as Heff1 by reflexivity.
  rewrite Heff1 in Heff. injection Heff as <-.
  split; [rewrite Hlen; reflexivity|].
  rewrite Hpol.
  change (hstack (part_psi_pol <$> [part])) with (part_psi_pol part ++ []).
  rewrite app_nil_r.
  apply (Hhwp (ex_intro _ "hwp_angle" eq_refl) 2 2%R);
    [rewrite Hrows; vm_compute; lia|reflexivity].
Defined.

Lemma C4_flagged_samples_nulled_witness :
  (∃ theta phi psi psi_pol,
     get_pointing sample_to_angles flag_traits flagged_data "det0"
     = Ok (theta, phi, psi, psi_pol)
     ∧ length theta = 4
     ∧ theta !! 1 = Some (angle_theta (sample_to_angles nullquat))
     ∧ psi !! 3 = Some (angle_psi (sample_to_angles nullquat) - 1)%R)
  ∧ ∃ theta phi psi psi_pol,
      get_pointing sample_to_angles shared_only_traits flagged_data "det0"
      = Ok (theta, phi, psi, psi_pol)
      ∧ length theta = 4
      ∧ theta !! 1 = Some (angle_theta (sample_to_angles nullquat)).
Proof.
  destruct flagged_data_views as (obs & Hdv & Hfp).
  split.
  - destruct (get_pointing_ready sample_to_angles flag_traits flagged_data
                "det0" (flagged_data_ready flag_traits eq_refl))
      as [[[[theta phi] psi] psi_pol] Hget].
    exists theta, phi, psi, psi_pol. split; [exact Hget|].
    destruct (C4_flagged_samples_nulled sample_to_angles flag_traits
                flagged_data "det0" theta phi psi psi_pol eq_refl Hget)
      as (Hlen & _ & _ & parts & Htheta & _ & Hpsi & Hviews).
    rewrite Hdv in Hlen, Hviews.
    apply Forall2_cons_inv_l in Hviews as (part & parts' & Hpart & Hnil & ->).
    apply Forall2_nil_inv_l in Hnil as ->.
    destruct Hpart as (eff & Heff & _ & _ & _ & Hnull).
    cbn [fst snd] in Heff, Hnull. rewrite Hfp in Heff.
    assert (effective_psi_pol flag_traits {[ "det0" := row_pol_angle ]} "det0"
            = Ok 1%R) as Heff1 by reflexivity.
    rewrite Heff1 in Heff. injection Heff as <-.
    split; [rewrite Hlen; reflexivity|].
    rewrite Htheta, Hpsi.
    change (hstack (part_theta <$> [part])) with (part_theta part ++ []).
    change (hstack (part_psi <$> [part])) with (part_psi part ++ []).
    rewrite !app_nil_r. split.
    + apply (Hnull 1 1%Z); [reflexivity|discriminate].
    + apply (Hnull 3 2%Z); [reflexivity|discriminate].
  - destruct (get_pointing_ready sample_to_angles shared_only_traits
                flagged_data "det0"
                (flagged_data_ready shared_only_traits eq_refl))
      as [[[[theta phi] psi] psi_pol] Hget].
    exists theta, phi, psi, psi_pol. split; [exact Hget|].
    destruct (C4_flagged_samples_nulled sample_to_angles shared_only_traits
                flagged_data "det0" theta phi psi psi_pol eq_refl Hget)
      as (Hlen & _ & _ & parts & Htheta & _ & _ & Hviews).
    rewrite Hdv in Hlen, Hviews.
    apply Forall2_cons_inv_l in Hviews as (part & parts' & Hpart & Hnil & ->).
    apply Forall2_nil_inv_l in Hnil as ->.
    destruct Hpart as (eff & _ & _ & _ & _ & Hnull).
    cbn [fst snd] in Hnull.
    split; [rewrite Hlen; reflexivity|].
    rewrite Htheta.
    change (hstack (part_theta <$> [part])) with (part_theta part ++ []).
    rewrite app_nil_r.
    apply (Hnull 1 1%Z); [reflexivity|discriminate].
Defined.

(** C4 as stated fails: the second sample of the view is flagged and the
    focal plane gives the detector a polarization angle of one radian;
    [get_pointing] returns, and whatever [qa.to_angles] computes, the psi it
    returns for that sample is not the psi of the null quaternion. *)
Lemma C4_counterexample :
  (∃ r, get_pointing sample_to_angles flag_traits flagged_data "det0" = Ok r)
  ∧ ¬ ∃ to_angles theta phi psi psi_pol,
        get_pointing to_angles flag_traits flagged_data "det0"
        = Ok (theta, phi, psi, psi_pol)
        ∧ psi !! 1 = Some (angle_psi (to_angles nullquat)).
Proof.
  split; [eexists; vm_compute; reflexivity|].
  intros (to_angles & theta & phi & psi & psi_pol & Hget & Hpsi).
  vm_compute in Hget. injection Hget as <- <- <- <-.
  vm_compute in Hpsi. injection Hpsi as Hpsi. lra.
Qed.

(** ** The two strategies *)

Section StrategyClaims.

Context (to_angles : quat → R * R * R).
Context {Sky Beam : Type}.
Context (normalized : Beam → bool).
Context (convolver : Sky → Beam → Detector → list (R * R * R) → list R).

Lemma get_pointing_lengths (self : Traits) (data : Data) (det : string)
  (theta phi psi psi_pol : list R) :
  get_pointing to_angles self data det = Ok (theta, phi, psi, psi_pol) →
  length phi = length theta ∧ length psi = length theta
  ∧ length psi_pol = length theta.
Proof.
  intros Hget.
  apply get_pointing_parts in Hget as (parts & Hparts & -> & -> & -> & ->).
  assert (Forall (λ part,
            length (part_phi part) = length (part_theta part)
            ∧ length (part_psi part) = length (part_theta part)
            ∧ length (part_psi_pol part) = length (part_theta part)) parts)
    as Hlens.
  { eapply Forall2_Forall_r; [exact Hparts|].
    apply Forall_forall. intros [obs view] _ [[[th ph] ps] pp] Hview. cbn in *.
    apply view_pointing_inv in Hview
      as (flags & quats & masked & eff & _ & _ & _ & _ & -> & -> & -> & Hpp).
    apply psi_pol_array_length in Hpp.
    unfold part_phi, part_psi, part_theta, part_psi_pol. cbn.
    rewrite Hpp, !length_fmap. done. }
  split_and!; apply hstack_length_eq;
    (eapply Forall_impl; [exact Hlens|]); by intros part (? & ? & ?).
Qed.

Lemma get_buffer_rows (theta phi psi : list R) :
  length phi = length theta → length psi = length theta →
  ∃ pnt, get_buffer theta phi psi = Ok pnt ∧ length pnt = length theta.
Proof.
  intros Hphi Hpsi. unfold get_buffer. case_bool_decide as Hn.
  - rewrite !broadcast_to_same by done. cbn. eexists. split; [done|].
    rewrite length_zip_with, length_zip. lia.
  - exists []. split; [done|]. cbn. lia.
Qed.

(** The recombination on a pointing buffer of at least one row. *)
Lemma weighted_signal_rows (det : string) (sky : Sky)
  (beamI00 beam0I0 beam00I : Beam) (theta phi psi psi_pol : list R)
  (pnt : list (R * R * R)) :
  (∀ sky beam detector pnt,
      length (convolver sky beam detector pnt) = length pnt) →
  get_buffer theta phi psi = Ok pnt →
  0 < length pnt → length psi_pol = length pnt →
  weighted_signal convolver det sky beamI00 beam0I0 beam00I theta phi psi psi_pol
  = Ok (Np.VArr (Np.mk_ndarray Np.float64
          (zip_with Rplus
             (zip_with Rplus
                (convolver sky beamI00 (get_detector det) pnt)
                (zip_with Rmult ((λ p, cos (2 * p)) <$> psi_pol)
                          (convolver sky beam0I0 (get_detector det) pnt)))
             (zip_with Rmult ((λ p, sin (2 * p)) <$> psi_pol)
                       (convolver sky beam00I (get_detector det) pnt))))).
Proof.
  intros Hrows Hpnt Hn Hpp. unfold weighted_signal, convolve.
  rewrite Hpnt. cbn. rewrite bool_decide_true by done. cbn.
  rewrite !binary_same by (rewrite length_fmap, Hrows; done). cbn.
  rewrite inplace_same
    by (rewrite length_zip_with, length_fmap, !Hrows; lia). cbn.
  rewrite inplace_same
    by (rewrite !length_zip_with, !length_fmap, !Hrows; lia).
  done.
Qed.

(** C1: on a pointing stream of at least one sample, the signal that
    [SimWeightedConviqt] combines from the three convolutions of the same
    pointing buffer is, sample by sample,
    [conv_I + cos (2 psi_pol) * conv_Q + sin (2 psi_pol) * conv_U]; when the
    three convolutions return ones it is 2 both for [psi_pol = 0] and for
    [psi_pol = pi/4]. *)
Theorem C1_weighted_recombination (self : Traits) (data : Data) (det : string)
  (sky : Sky) (beamI00 beam0I0 beam00I : Beam)
  (theta phi psi psi_pol : list R) :
  (∀ sky beam detector pnt,
      length (convolver sky beam detector pnt) = length pnt) →
  get_pointing to_angles self data det = Ok (theta, phi, psi, psi_pol) →
  0 < length theta →
  ∃ pnt signal,
    get_buffer theta phi psi = Ok pnt
    ∧ weighted_signal convolver det sky beamI00 beam0I0 beam00I
                      theta phi psi psi_pol
      = Ok (Np.VArr (Np.mk_ndarray Np.float64 signal))
    ∧ length signal = length theta
    ∧ (∀ i p conv_I conv_Q conv_U,
         psi_pol !! i = Some p →
         convolver sky beamI00 (get_detector det) pnt !! i = Some conv_I →
         convolver sky beam0I0 (get_detector det) pnt !! i = Some conv_Q →
         convolver sky beam00I (get_detector det) pnt !! i = Some conv_U →
         signal !! i
         = Some (conv_I + cos (2 * p) * conv_Q + sin (2 * p) * conv_U)%R)
    ∧ ((∀ beam, convolver sky beam (get_detector det) pnt
                = replicate (length pnt) 1%R) →
       ∀ i p, psi_pol !! i = Some p → (p = 0 ∨ p = PI / 4)%R →
              signal !! i = Some 2%R).
Proof.
  intros Hrows Hget Hn.
  destruct (get_pointing_lengths _ _ _ _ _ _ _ Hget) as (Hphi & Hpsi & Hpp).
  destruct (get_buffer_rows theta phi psi Hphi Hpsi) as (pnt & Hpnt & Hlen).
  exists pnt. eexists. split; [done|]. split.
  { apply weighted_signal_rows; [done..|lia|lia]. }
  assert (∀ i p conv_I conv_Q conv_U,
    psi_pol !! i = Some p →
    convolver sky beamI00 (get_detector det) pnt !! i = Some conv_I →
    convolver sky beam0I0 (get_detector det) pnt !! i = Some conv_Q →
    convolver sky beam00I (get_detector det) pnt !! i = Some conv_U →
    zip_with Rplus
      (zip_with Rplus (convolver sky beamI00 (get_detector det) pnt)
         (zip_with Rmult ((λ p, cos (2 * p)) <$> psi_pol)
            (convolver sky beam0I0 (get_detector det) pnt)))
      (zip_with Rmult ((λ p, sin (2 * p)) <$> psi_pol)
         (convolver sky beam00I (get_detector det) pnt)) !! i
    = Some (conv_I + cos (2 * p) * conv_Q + sin (2 * p) * conv_U)%R)
    as Hformula.
  { intros i p cI cQ cU Hp HI HQ HU.
    apply lookup_zip_with_Some. eexists _, _. split_and!; [done|..].
    - apply lookup_zip_with_Some. eexists _, _. split_and!; [done..|].
      apply lookup_zip_with_Some. eexists _, _. split_and!; [done| |done].
      by rewrite list_lookup_fmap, Hp.
    - apply lookup_zip_with_Some. eexists _, _. split_and!; [done| |done].
      by rewrite list_lookup_fmap, Hp. }
  split_and!.
  - rewrite !length_zip_with, !length_fmap, !Hrows. lia.
  - exact Hformula.
  - intros Hones i p Hp Hcase.
    assert (i < length pnt) as Hi.
    { apply lookup_lt_Some in Hp. lia. }
    rewrite (Hformula i p 1 1 1)%R;
      [|done|rewrite Hones; by apply lookup_replicate_2..].
    f_equal. destruct Hcase as [-> | ->].
    + rewrite Rmult_0_r, cos_0, sin_0. lra.
    + replace (2 * (PI / 4))%R with (PI / 2)%R by lra.
      rewrite cos_PI2, sin_PI2. lra.
Qed.

End StrategyClaims.

Lemma C1_weighted_recombination_witness :
  get_pointing sample_to_angles hwp_traits hwp_data "det0"
  = Ok ([0; 0], [0; 0], [0 - 0; 0 - 0],
        [1 * 0 + 2 * 0; 1 * 0 + 2 * (PI / 8)])%R
  ∧ ∃ signal,
      weighted_signal ones_convolver "det0" () () () ()
        [0; 0]%R [0; 0]%R [0 - 0; 0 - 0]%R
        [1 * 0 + 2 * 0; 1 * 0 + 2 * (PI / 8)]%R
      = Ok (Np.VArr (Np.mk_ndarray Np.float64 signal))
      ∧ signal !! 0 = Some 2%R ∧ signal !! 1 = Some 2%R.
Proof.
  assert (get_pointing sample_to_angles hwp_traits hwp_data "det0"
          = Ok ([0; 0], [0; 0], [0 - 0; 0 - 0],
                [1 * 0 + 2 * 0; 1 * 0 + 2 * (PI / 8)])%R) as Hget.
  { vm_compute. reflexivity. }
  split; [exact Hget|].
  destruct (C1_weighted_recombination sample_to_angles ones_convolver
              hwp_traits hwp_data "det0" () () () () _ _ _ _
              (λ _ _ _ pnt, length_replicate (length pnt) 1%R) Hget)
    as (pnt & signal & _ & Hsignal & _ & _ & Hones).
  { cbn. lia. }
  exists signal. split; [exact Hsignal|].
  split.
  - apply (Hones (λ _, eq_refl) 0 (1 * 0 + 2 * 0)%R); [reflexivity|left; lra].
  - apply (Hones (λ _, eq_refl) 1 (1 * 0 + 2 * (PI / 8))%R);
      [reflexivity|right; lra].
Defined.

(** ** A detector without views *)

Lemma _get_epsilon_is_Ok (fp : gmap string Row) (det : string) :
  is_Some (fp !! det) → ∃ epsilon, _get_epsilon fp det = Ok epsilon.
Proof.
  intros [props Hprops]. unfold _get_epsilon. rewrite Hprops.
  destruct (col_pol_leakage props); cbn; eauto.
Qed.

Lemma calibrate_no_views (det : string) (data : Data) (st : nat * Np.value) :
  no_views data det → in_focalplane data det →
  fold_each (calibrate_obs det) st data = Ok st.
Proof.
  intros Hnone Hfp. induction data as [|obs data IH]; [done|].
  inversion Hnone as [|? ? Hobs Hnone']; subst.
  inversion Hfp as [|? ? Hdet Hfp']; subst.
  cbn [fold_each]. destruct (decide (det ∈ local_detectors obs)) as [Hlocal|Hlocal].
  - destruct (_get_epsilon_is_Ok (focalplane obs) det) as [epsilon Heps];
      [auto|].
    rewrite (calibrate_obs_local _ epsilon) by done.
    rewrite Hobs by done. cbn. by apply IH.
  - rewrite calibrate_obs_skip by done. cbn. by apply IH.
Qed.

Lemma save_obs_no_views (det : string) (cd : Np.value) (data : Data)
  (offset : nat) :
  no_views data det → save_obs det cd offset data = Ok (offset, data).
Proof.
  intros Hnone. induction data as [|obs data IH]; [done|].
  inversion Hnone as [|? ? Hobs Hnone']; subst.
  cbn [save_obs]. case_bool_decide as Hlocal.
  - rewrite Hobs by done. cbn. rewrite IH by done. cbn.
    do 3 f_equal. destruct obs as [dets fp vs]. cbn in *.
    by rewrite Hobs.
  - cbn. by rewrite IH.
Qed.

Section ZeroLength.

Context (to_angles : quat → R * R * R).
Context {Sky Beam : Type}.
Context (normalized : Beam → bool).
Context (convolver : Sky → Beam → Detector → list (R * R * R) → list R).

Lemma obs_pointing_no_views (self : Traits) (det : string) (data : Data) :
  no_views data det →
  for_each (obs_pointing to_angles self det) data = Ok (replicate (length data) []).
Proof.
  intros Hnone. induction data as [|obs data IH]; [done|].
  inversion Hnone as [|? ? Hobs Hnone']; subst.
  assert (obs_pointing to_angles self det obs = Ok []) as Hhere.
  { unfold obs_pointing. case_bool_decide as Hlocal; [|done].
    by rewrite Hobs. }
  cbn [for_each]. rewrite Hhere. cbn. by rewrite IH.
Qed.

Lemma get_pointing_no_views (self : Traits) (data : Data) (det : string) :
  no_views data det →
  get_pointing to_angles self data det = Ok ([], [], [], []).
Proof.
  intros Hnone. unfold get_pointing.
  rewrite obs_pointing_no_views by done. cbn.
  assert (mjoin (replicate (length data)
                   ([] : list (list R * list R * list R * list R))) = [])
    as ->; [|done].
  induction (length data) as [|n IH]; [done|]. cbn. exact IH.
Qed.

(** C9: a detector that appears in no view of the local process gets
    zero-length theta, phi, psi and psi_pol, and every later stage of the
    static and of the weighted strategy goes through on them: the pointing
    buffer has no row, the convolution result is [None], the weighted
    recombination yields an empty array, calibration and accumulation visit
    no view, and the observations are left as they are. *)
Theorem C9_zero_length_noop (self : Traits) (data : Data) (det : string)
  (sky : Sky) (beam beamI00 beam0I0 beam00I : Beam) :
  no_views data det → in_focalplane data det →
  get_pointing to_angles self data det = Ok ([], [], [], [])
  ∧ get_buffer [] [] [] = Ok []
  ∧ convolve convolver sky beam (get_detector det) [] = Np.VNone
  ∧ weighted_signal convolver det sky beamI00 beam0I0 beam00I [] [] [] []
    = Ok (Np.VArr (Np.mk_ndarray Np.object []))
  ∧ calibrate_signal normalized self data det beam Np.VNone = Ok Np.VNone
  ∧ calibrate_signal normalized self data det beamI00
                     (Np.VArr (Np.mk_ndarray Np.object []))
    = Ok (Np.VArr (Np.mk_ndarray Np.object []))
  ∧ save data det Np.VNone = Ok data
  ∧ save data det (Np.VArr (Np.mk_ndarray Np.object [])) = Ok data
  ∧ SimConviqt_exec_detector to_angles normalized convolver self data det
                             sky beam = Ok data
  ∧ SimWeightedConviqt_exec_detector to_angles normalized convolver self data
                                     det sky beamI00 beam0I0 beam00I
    = Ok data.
Proof.
  intros Hnone Hfp.
  assert (∀ b cd, calibrate_signal normalized self data det b cd = Ok cd)
    as Hcal.
  { intros b cd. unfold calibrate_signal.
    destruct (negb (calibrate self) || normalized b); [done|].
    by rewrite calibrate_no_views. }
  assert (∀ cd, save data det cd = Ok data) as Hsave.
  { intros cd. unfold save. by rewrite save_obs_no_views. }
  assert (get_buffer [] [] [] = Ok []) as Hbuf by done.
  assert (∀ b, convolve convolver sky b (get_detector det) [] = Np.VNone)
    as Hconv by done.
  assert (weighted_signal convolver det sky beamI00 beam0I0 beam00I [] [] [] []
          = Ok (Np.VArr (Np.mk_ndarray Np.object []))) as Hweighted by done.
  split_and!; try done.
  - by apply get_pointing_no_views.
  - unfold SimConviqt_exec_detector.
    rewrite get_pointing_no_views by done. cbn.
    rewrite Hbuf. cbn. rewrite Hconv, Hcal. cbn. apply Hsave.
  - unfold SimWeightedConviqt_exec_detector.
    rewrite get_pointing_no_views by done. cbn.
    rewrite Hweighted. cbn. rewrite Hcal. cbn. apply Hsave.
Qed.

End ZeroLength.

Lemma C9_zero_length_noop_witness :
  SimConviqt_exec_detector sample_to_angles (λ _ : unit, false) ones_convolver
                           plain_traits no_view_data "det0" () ()
  = Ok no_view_data
  ∧ SimWeightedConviqt_exec_detector sample_to_angles (λ _ : unit, false)
                                     ones_convolver plain_traits no_view_data
                                     "det0" () () () ()
    = Ok no_view_data.
Proof.
  destruct (C9_zero_length_noop sample_to_angles (λ _ : unit, false)
              ones_convolver plain_traits no_view_data "det0" () () () () ())
    as (_ & _ & _ & _ & _ & _ & _ & _ & Hstatic & Hweighted).
  - repeat constructor. intros Hlocal.
    apply list_elem_of_singleton in Hlocal. discriminate Hlocal.
  - repeat constructor.
    + intros _. by eexists.
    + intros Hlocal. apply list_elem_of_singleton in Hlocal.
      discriminate Hlocal.
  - split; [exact Hstatic|exact Hweighted].
Defined.

(** * Further properties of the operator *)

(** ** The Dxx angle accessor *)

(** X1: [_get_psi_uv] raises on every focal plane, and which exception it
    raises is decided by the row of the detector: [RuntimeError] exactly
    when the detector is absent or its row has no 'psi_uv_deg' column,
    [KeyError] on 'psi_uv' exactly when the row has 'psi_uv_deg' but no
    'psi_uv' column, and [NameError] on 'psipol' exactly when it has both. *)
Theorem X1_get_psi_uv_exceptions (fp : gmap string Row) (det : string) :
  ((∃ msg, _get_psi_uv fp det = Raise (RuntimeError msg))
   ↔ (fp !! det = None
      ∨ ∃ props, fp !! det = Some props ∧ col_psi_uv_deg props = None))
  ∧ (_get_psi_uv fp det = Raise (KeyError "psi_uv")
     ↔ ∃ props, fp !! det = Some props
                ∧ is_Some (col_psi_uv_deg props) ∧ col_psi_uv props = None)
  ∧ (_get_psi_uv fp det = Raise (NameError "psipol")
     ↔ ∃ props, fp !! det = Some props
                ∧ is_Some (col_psi_uv_deg props)
                ∧ is_Some (col_psi_uv props)).
Proof.
  unfold _get_psi_uv.
  destruct (fp !! det) as [props|] eqn:Hdet;
    [destruct (col_psi_uv_deg props) as [q|] eqn:Hdeg; cbn;
     destruct (col_psi_uv props) as [q'|] eqn:Huv; cbn|];
    (split; [|split]); split; intros H;
    repeat match goal with
      | H : ∃ _, _ |- _ => destruct H
      | H : _ ∧ _ |- _ => destruct H
      | H : _ ∨ _ |- _ => destruct H
      | H : is_Some _ |- _ => destruct H
      end;
    simplify_eq; eauto 10.
Qed.

(** ** The pointing array *)

(** X2: on three angle arrays of one length, [get_buffer] returns an array
    with one row per sample, and row [i] holds (phi[i], theta[i], psi[i]):
    the azimuth comes first, although the arguments are passed in the order
    theta, phi, psi. *)
Theorem X2_get_buffer_rows (theta phi psi : list R) :
  length phi = length theta → length psi = length theta →
  ∃ pnt,
    get_buffer theta phi psi = Ok pnt
    ∧ length pnt = length theta
    ∧ ∀ i, pnt !! i
           = (p ← phi !! i; t ← theta !! i; s ← psi !! i; Some (p, t, s)).
Proof.
  intros Hphi Hpsi. unfold get_buffer. case_bool_decide as Hrow.
  - rewrite !broadcast_to_same by done. cbn. eexists. split; [done|]. split.
    + rewrite length_zip_with, length_zip_with. lia.
    + intros i. rewrite lookup_zip_with, lookup_zip_with.
      destruct (phi !! i), (theta !! i), (psi !! i); done.
  - exists []. split; [done|]. split; [cbn; lia|].
    intros i. destruct theta; [|cbn in Hrow; lia].
    destruct phi; [|done]. by rewrite !lookup_nil.
Qed.

Lemma X2_get_buffer_rows_witness :
  ∃ pnt,
    get_buffer [1; 2]%R [3; 4]%R [5; 6]%R = Ok pnt
    ∧ length pnt = 2
    ∧ ∀ i, pnt !! i
           = (p ← [3; 4]%R !! i; t ← [1; 2]%R !! i; s ← [5; 6]%R !! i;
              Some (p, t, s)).
Proof. by apply (X2_get_buffer_rows [1; 2]%R [3; 4]%R [5; 6]%R). Defined.

(** X3: [get_buffer] sizes the pointing array by [theta] alone.  With an
    empty [theta] it builds no row and never looks at [phi] and [psi]; with
    a non-empty [theta] it raises numpy's [ValueError] when [phi] or [psi]
    has a length that is neither the length of [theta] nor one; and a [phi]
    of a single entry is broadcast to every row. *)
Theorem X3_get_buffer_shapes (theta phi psi : list R) :
  (theta = [] → get_buffer theta phi psi = Ok [])
  ∧ (0 < length theta →
     (length phi ≠ length theta ∧ length phi ≠ 1)
     ∨ (length psi ≠ length theta ∧ length psi ≠ 1) →
     ∃ msg, get_buffer theta phi psi = Raise (ValueError msg))
  ∧ (∀ p, 0 < length theta → phi = [p] → length psi = length theta →
          ∃ pnt, get_buffer theta phi psi = Ok pnt
                 ∧ length pnt = length theta
                 ∧ ∀ i row, pnt !! i = Some row → row.1.1 = p).
Proof.
  split; [|split].
  - intros ->. done.
  - intros Hrow Hbad. unfold get_buffer. rewrite bool_decide_eq_true_2 by done.
    destruct (Np.broadcast_to (length theta) phi) as [col0|e] eqn:Hcol0.
    + rewrite (broadcast_to_same (length theta) theta) by done. cbn.
      destruct Hbad as [[Hn H1]|[Hn H1]].
      * rewrite broadcast_to_fail in Hcol0 by done. discriminate.
      * rewrite broadcast_to_fail by done. by eexists.
    + cbn. unfold Np.broadcast_to in Hcol0. case_decide; [done|].
      destruct phi as [|? [|? ?]]; simplify_eq; by eexists.
  - intros p Hrow -> Hpsi. unfold get_buffer.
    rewrite bool_decide_eq_true_2 by done.
    rewrite (broadcast_to_same (length theta) theta) by done.
    rewrite (broadcast_to_same (length theta) psi) by done.
    assert (Np.broadcast_to (length theta) [p] = Ok (replicate (length theta) p))
      as ->.
    { unfold Np.broadcast_to. case_decide as Hlen; [|done].
      cbn in Hlen. rewrite <- Hlen. done. }
    cbn. eexists. split; [done|]. split.
    + rewrite length_zip_with, length_zip_with, length_replicate. lia.
    + intros i row Hrow'. rewrite lookup_zip_with in Hrow'.
      destruct (replicate (length theta) p !! i) as [p'|] eqn:Hp; [|done].
      apply lookup_replicate in Hp as [-> _]. cbn in Hrow'.
      destruct (zip theta psi !! i); simplify_eq/=. done.
Qed.

(** ** Beam file names *)

Lemma string_app_cons (x : Ascii.ascii) (a b : string) :
  String x a +:+ b = String x (a +:+ b).
Proof. reflexivity. Qed.

Lemma string_app_assoc (a b c : string) : (a +:+ b) +:+ c = a +:+ (b +:+ c).
Proof.
  induction a as [|x a IH]; [done|]. rewrite !string_app_cons. by f_equal.
Qed.

Lemma string_app_empty_r (a : string) : a +:+ "" = a.
Proof.
  induction a as [|x a IH]; [done|]. rewrite string_app_cons. by f_equal.
Qed.

Lemma string_app_length (a b : string) :
  String.length (a +:+ b) = String.length a + String.length b.
Proof.
  induction a as [|x a IH]; [done|]. rewrite string_app_cons. cbn. by f_equal.
Qed.

Lemma prefix_app (old post : string) : String.prefix old (old +:+ post) = true.
Proof.
  induction old as [|x old IH]; [by destruct post|].
  rewrite string_app_cons. cbn. destruct (Ascii.ascii_dec x x); done.
Qed.

Lemma prefix_inv (old s : string) :
  String.prefix old s = true → ∃ post, s = old +:+ post.
Proof.
  revert s. induction old as [|x old IH]; intros s Hpre; [by exists s|].
  destruct s as [|y s]; [done|]. cbn in Hpre.
  destruct (Ascii.ascii_dec x y) as [->|]; [|done].
  destruct (IH s Hpre) as [post ->]. by exists post.
Qed.

Lemma replace_from_skip (old new s post : string) :
  replace_from old new (String.length s) (s +:+ post)
  = replace_from old new 0 post.
Proof.
  induction s as [|x s IH]; [by destruct post|].
  rewrite string_app_cons. done.
Qed.

(** Up to its first occurrence of [old] the string is copied, the occurrence
    is replaced, and the scan resumes behind it. *)
Lemma replace_from_first (old new pre post : string) :
  old ≠ "" →
  (∀ pre' post', pre +:+ old +:+ post = pre' +:+ old +:+ post' →
                 String.length pre ≤ String.length pre') →
  replace_from old new 0 (pre +:+ old +:+ post)
  = pre +:+ new +:+ replace_from old new 0 post.
Proof.
  intros Hold. induction pre as [|x pre IH]; intros Hfirst.
  - destruct old as [|y old]; [done|].
    change ("" +:+ String y old +:+ post) with (String y (old +:+ post)).
    cbn [replace_from].
    change (String y (old +:+ post)) with (String y old +:+ post).
    rewrite prefix_app.
    replace (String.length (String y old) - 1) with (String.length old)
      by (cbn; lia).
    by rewrite replace_from_skip.
  - rewrite !string_app_cons. cbn [replace_from].
    destruct (String.prefix old (String x (pre +:+ old +:+ post))) eqn:Hpre.
    + apply prefix_inv in Hpre as [post' Hpost'].
      specialize (Hfirst "" post'). rewrite string_app_cons in Hfirst.
      specialize (Hfirst Hpost'). cbn in Hfirst. lia.
    + f_equal. apply IH. intros pre' post' Heq.
      specialize (Hfirst (String x pre') post').
      rewrite !string_app_cons, Heq in Hfirst.
      specialize (Hfirst eq_refl). cbn in Hfirst. lia.
Qed.

Lemma replace_from_absent (old new s : string) :
  ¬ occurs_in old s → replace_from old new 0 s = s.
Proof.
  induction s as [|x s IH]; intros Habsent; [done|].
  cbn [replace_from].
  destruct (String.prefix old (String x s)) eqn:Hpre.
  - apply prefix_inv in Hpre as [post Hpost].
    destruct Habsent. by exists "", post.
  - f_equal. apply IH. intros (pre & post & ->).
    destruct Habsent. by exists (String x pre), post.
Qed.

Lemma str_replace_absent (s old new : string) :
  old ≠ "" → ¬ occurs_in old s → str_replace s old new = s.
Proof.
  intros Hold Habsent. destruct old; [done|]. by apply replace_from_absent.
Qed.

Lemma str_replace_suffix (stem old new : string) :
  old ≠ "" →
  (∀ pre post, stem +:+ old = pre +:+ old +:+ post → post = "") →
  str_replace (stem +:+ old) old new = stem +:+ new.
Proof.
  intros Hold Honly.
  assert (str_replace (stem +:+ old) old new
          = replace_from old new 0 (stem +:+ old +:+ "")) as ->.
  { rewrite string_app_empty_r. by destruct old. }
  rewrite replace_from_first; [by rewrite string_app_empty_r|done|].
  intros pre' post' Heq. rewrite string_app_empty_r in Heq.
  pose proof (Honly pre' post' Heq) as ->.
  rewrite string_app_empty_r in Heq.
  apply (f_equal String.length) in Heq. rewrite !string_app_length in Heq. lia.
Qed.

(** X4: the three beam files of the weighted operator.  A [beam_file] in
    which '.fits' does not occur is used as it is for all three beams; a
    [beam_file] that ends in '.fits', with no other occurrence of it, gives
    the three different names that end in '_I000.fits', '_0I00.fits' and
    '_00I0.fits' after the same stem. *)
Theorem X4_weighted_beam_files (beam_file : string) :
  (¬ occurs_in ".fits" beam_file →
   weighted_beam_files beam_file = (beam_file, beam_file, beam_file))
  ∧ (∀ stem,
       beam_file = stem +:+ ".fits" →
       (∀ pre post, beam_file = pre +:+ ".fits" +:+ post → post = "") →
       weighted_beam_files beam_file
       = (stem +:+ "_I000.fits", stem +:+ "_0I00.fits", stem +:+ "_00I0.fits")
       ∧ stem +:+ "_I000.fits" ≠ stem +:+ "_0I00.fits"
       ∧ stem +:+ "_I000.fits" ≠ stem +:+ "_00I0.fits"
       ∧ stem +:+ "_0I00.fits" ≠ stem +:+ "_00I0.fits").
Proof.
  split.
  - intros Habsent. unfold weighted_beam_files.
    by rewrite !str_replace_absent.
  - intros stem -> Honly. split.
    + unfold weighted_beam_files. by rewrite !str_replace_suffix.
    + split_and!; intros Heq; by apply (inj (String.append stem)) in Heq.
Qed.

Lemma X4_weighted_beam_files_witness :
  weighted_beam_files "beam.alm" = ("beam.alm", "beam.alm", "beam.alm")
  ∧ weighted_beam_files "beam_det0.fits"
    = ("beam_det0_I000.fits", "beam_det0_0I00.fits", "beam_det0_00I0.fits").
Proof.
  split.
  - apply (X4_weighted_beam_files "beam.alm").
    intros (pre & post & Heq).
    repeat (destruct pre as [|? pre]; [done|]; injection Heq as _ Heq).
    by destruct pre.
  - apply (X4_weighted_beam_files "beam_det0.fits") with (stem := "beam_det0");
      [done|].
    intros pre post Heq.
    repeat (destruct pre as [|? pre]; [done|]; injection Heq as _ Heq).
    destruct pre as [|? pre]; [unfold String.append in Heq; by simplify_eq|].
    repeat (injection Heq as _ Heq; destruct pre as [|? pre]; [done|]).
    done.
Defined.

(** ** What [save] leaves alone *)

Lemma save_view_frame (det : string) (cd : Np.value) (offset offset' : nat)
  (view view' : View) :
  save_view det cd offset view = Ok (offset', view') →
  same_but_timestream det view view'.
Proof.
  unfold save_view. intros Hsave.
  destruct (det_data_data view !! det) as [seg|] eqn:Hseg; [|done].
  cbn in Hsave. destruct cd as [|[[] buf]]; try done. cbn in Hsave.
  destruct (Np.inplace Rplus seg (Np.slice offset (length seg) buf))
    as [seg'|] eqn:Hadd; [|done].
  cbn in Hsave. simplify_eq.
  unfold same_but_timestream, stored. cbn. split_and!; try done.
  - intros d Hd. by rewrite lookup_insert_ne.
  - rewrite lookup_insert_eq. eauto.
  - rewrite lookup_insert_eq, Hseg. cbn. by eapply inplace_length.
Qed.

Lemma save_views_frame (det : string) (cd : Np.value) (vs vs' : list View)
  (offset offset' : nat) :
  save_views det cd offset vs = Ok (offset', vs') →
  Forall2 (same_but_timestream det) vs vs'.
Proof.
  revert vs' offset offset'.
  induction vs as [|view vs IH]; intros vs' offset offset' Hsave.
  - cbn in Hsave. simplify_eq. constructor.
  - cbn in Hsave.
    destruct (save_view det cd offset view) as [[o1 view']|] eqn:Hview; [|done].
    cbn in Hsave.
    destruct (save_views det cd o1 vs) as [[o2 vs'']|] eqn:Hrest; [|done].
    cbn in Hsave. simplify_eq. constructor; [|by eapply IH].
    by eapply save_view_frame.
Qed.

Lemma save_obs_frame (det : string) (cd : Np.value) (data data' : Data)
  (offset offset' : nat) :
  save_obs det cd offset data = Ok (offset', data') →
  Forall2 (same_but_timestreams det) data data'.
Proof.
  revert data' offset offset'.
  induction data as [|obs data IH]; intros data' offset offset' Hsave.
  - cbn in Hsave. simplify_eq. constructor.
  - cbn [save_obs] in Hsave. unfold same_but_timestreams at 1.
    case_bool_decide as Hlocal.
    + destruct (save_views det cd offset (views obs)) as [[o1 vs']|] eqn:Hvs;
        [|done].
      cbn in Hsave.
      destruct (save_obs det cd o1 data) as [[o2 data'']|] eqn:Hrest; [|done].
      cbn in Hsave. simplify_eq. constructor; [|by eapply IH].
      cbn. rewrite bool_decide_eq_true_2 by done.
      split_and!; try done. by eapply save_views_frame.
    + cbn in Hsave.
      destruct (save_obs det cd offset data) as [[o2 data'']|] eqn:Hrest; [|done].
      cbn in Hsave. simplify_eq. constructor; [|by eapply IH].
      by rewrite bool_decide_eq_false_2.
Qed.

Lemma save_frame (data data' : Data) (det : string) (cd : Np.value) :
  save data det cd = Ok data' → Forall2 (same_but_timestreams det) data data'.
Proof.
  unfold save. intros Hsave.
  destruct (save_obs det cd 0 data) as [[o data'']|] eqn:Hobs; [|done].
  cbn in Hsave. simplify_eq. by eapply save_obs_frame.
Qed.

(** The views that the loops visit for any detector [d] correspond one to
    one before and after. *)
Lemma frame_det_views (det d : string) (data data' : Data) :
  Forall2 (same_but_timestreams det) data data' →
  Forall2 (λ ov ov', focalplane ov'.1 = focalplane ov.1
                     ∧ ((same_but_timestream det ov.2 ov'.2
                         ∧ det ∈ local_detectors ov.1)
                        ∨ ov'.2 = ov.2))
          (det_views data d) (det_views data' d).
Proof.
  induction 1 as [|obs obs' data data' Hobs _ IH]; [constructor|].
  rewrite !det_views_cons. apply Forall2_app; [|done].
  unfold same_but_timestreams in Hobs.
  destruct Hobs as (Hloc & Hfp & Hviews). rewrite Hloc.
  destruct (bool_decide (d ∈ local_detectors obs)); [|constructor].
  apply Forall2_fmap. case_bool_decide.
  - eapply Forall2_impl; [exact Hviews|]. cbn. intros v v' Hsame. eauto.
  - rewrite Hviews. apply Forall_Forall2_diag, Forall_forall. cbn. eauto.
Qed.

Lemma frame_stored_other (det d : string) (view view' : View) :
  d ≠ det → same_but_timestream det view view' →
  stored d view' = stored d view.
Proof.
  intros Hd (_ & _ & _ & _ & Hother & _). unfold stored. by rewrite Hother.
Qed.

Lemma frame_det_segments_other (det d : string) (data data' : Data) :
  d ≠ det → Forall2 (same_but_timestreams det) data data' →
  det_segments data' d = det_segments data d.
Proof.
  intros Hd Hframe. unfold det_segments. symmetry.
  apply Forall2_fmap_eq.
  eapply Forall2_impl; [by apply frame_det_views|].
  cbn. intros ov ov' [_ [[Hsame _]| ->]]; [|done].
  symmetry. by apply frame_stored_other with det.
Qed.

Lemma frame_segment_lengths (det : string) (data data' : Data) :
  Forall2 (same_but_timestreams det) data data' →
  length <$> det_segments data' det = length <$> det_segments data det.
Proof.
  intros Hframe. unfold det_segments. rewrite <- !list_fmap_compose.
  symmetry. apply Forall2_fmap_eq.
  eapply Forall2_impl; [by apply (frame_det_views det det)|].
  cbn. intros ov ov' [_ [[Hsame _]| ->]]; [|done].
  by destruct Hsame as (_ & _ & _ & _ & _ & _ & _ & ->).
Qed.

Lemma frame_det_views_self (det : string) (data data' : Data) :
  Forall2 (same_but_timestreams det) data data' →
  Forall2 (λ ov ov', same_but_timestream det ov.2 ov'.2)
          (det_views data det) (det_views data' det).
Proof.
  induction 1 as [|obs obs' data data' Hobs _ IH]; [constructor|].
  rewrite !det_views_cons. apply Forall2_app; [|done].
  unfold same_but_timestreams in Hobs.
  destruct Hobs as (Hloc & Hfp & Hviews). rewrite Hloc.
  destruct (bool_decide (det ∈ local_detectors obs)); [|constructor].
  by apply Forall2_fmap.
Qed.

Lemma frame_det_data_ensured (det : string) (data data' : Data) :
  Forall2 (same_but_timestreams det) data data' →
  det_data_ensured data' det.
Proof.
  intros Hframe. unfold det_data_ensured.
  eapply Forall2_Forall_r; [by apply frame_det_views_self|].
  apply Forall_forall. intros ov _ ov' Hsame.
  by destruct Hsame as (_ & _ & _ & _ & _ & _ & ? & _).
Qed.

Section SaveFrame.

Context (to_angles : quat → R * R * R).

Lemma frame_view_pointing (self : Traits) (fp : gmap string Row)
  (det d : string) (view view' : View) :
  same_but_timestream det view view' →
  view_pointing to_angles self fp d view'
  = view_pointing to_angles self fp d view.
Proof.
  intros (Hshared & Hflags & Hquats & Hhwp & _).
  unfold view_pointing, view_flags. by rewrite Hshared, Hflags, Hquats, Hhwp.
Qed.

Lemma frame_get_pointing (self : Traits) (det d : string) (data data' : Data) :
  Forall2 (same_but_timestreams det) data data' →
  get_pointing to_angles self data' d = get_pointing to_angles self data d.
Proof.
  intros Hframe. unfold get_pointing.
  assert (for_each (obs_pointing to_angles self d) data'
          = for_each (obs_pointing to_angles self d) data) as ->; [|done].
  induction Hframe as [|obs obs' data data' Hobs _ IH]; [done|].
  cbn [for_each]. rewrite IH.
  assert (obs_pointing to_angles self d obs'
          = obs_pointing to_angles self d obs) as ->; [|done].
  unfold same_but_timestreams in Hobs.
  destruct Hobs as (Hloc & Hfp & Hviews).
  unfold obs_pointing. rewrite Hloc, Hfp.
  destruct (bool_decide (d ∈ local_detectors obs)); [|done].
  destruct (bool_decide (det ∈ local_detectors obs)); [|by rewrite Hviews].
  induction Hviews as [|v v' vs vs' Hv _ IHvs]; [done|].
  cbn [for_each]. by rewrite IHvs, (frame_view_pointing _ _ det d v v' Hv).
Qed.

(** X5: whatever buffer it is given, when [save] returns it has changed
    nothing but the timestreams of [det].  The observations keep their
    local detectors, focal plane and number of views; an observation where
    [det] is not local keeps its views as they are; in the others every
    view keeps its flags, quaternions and HWP angles, the timestreams of the
    other detectors, and the number of samples of [det].  So the segments of
    every other detector are the same, [det] has as many samples as before,
    and [get_pointing] returns for every detector what it returned before. *)
Theorem X5_save_frame (data data' : Data) (det : string) (cd : Np.value) :
  save data det cd = Ok data' →
  Forall2 (same_but_timestreams det) data data'
  ∧ (∀ d, d ≠ det → det_segments data' d = det_segments data d)
  ∧ length <$> det_segments data' det = length <$> det_segments data det
  ∧ total_samples data' det = total_samples data det
  ∧ ∀ self d,
      get_pointing to_angles self data' d = get_pointing to_angles self data d.
Proof.
  intros Hsave. apply save_frame in Hsave. split_and!; [done|..].
  - intros d Hd. by apply frame_det_segments_other with det.
  - by apply frame_segment_lengths.
  - unfold total_samples. by rewrite (frame_segment_lengths det data data').
  - intros self d. by apply frame_get_pointing with det.
Qed.

End SaveFrame.

Lemma X5_save_frame_witness :
  ∃ data',
    save two_views "det0" (Np.VArr (Np.mk_ndarray Np.float64 [1; 3; 5]%R))
    = Ok data'
    ∧ total_samples data' "det0" = 3
    ∧ get_pointing sample_to_angles plain_traits data' "det0"
      = get_pointing sample_to_angles plain_traits two_views "det0".
Proof.
  destruct (save_inside two_views "det0" [1; 3; 5]%R) as (data' & Hsave & _).
  - unfold det_data_ensured. repeat constructor; by eexists.
  - vm_compute. lia.
  - exists data'. split; [exact Hsave|].
    destruct (X5_save_frame sample_to_angles two_views data' "det0" _ Hsave)
      as (_ & _ & _ & Htotal & Hpointing).
    split; [exact Htotal|apply Hpointing].
Defined.

(** X6: [save] can be repeated.  On ensured timestreams and two buffers
    that cover the samples of the detector, the second [save] works on what
    the first one left: both return, and every view holds its former
    content plus its run of the first buffer plus its run of the second,
    the runs being cut from both buffers at the same offsets. *)
Theorem X6_save_twice (data : Data) (det : string) (a b : list R) :
  det_data_ensured data det →
  total_samples data det ≤ length a →
  total_samples data det ≤ length b →
  ∃ data1 data2,
    save data det (Np.VArr (Np.mk_ndarray Np.float64 a)) = Ok data1
    ∧ save data1 det (Np.VArr (Np.mk_ndarray Np.float64 b)) = Ok data2
    ∧ det_segments data2 det
      = zip_with (zip_with Rplus)
          (zip_with (zip_with Rplus) (det_segments data det)
                    (reshape (length <$> det_segments data det) a))
          (reshape (length <$> det_segments data det) b).
Proof.
  intros Hensured Ha Hb.
  destruct (save_inside data det a Hensured Ha) as (data1 & Hsave1 & Hsegs1).
  pose proof (save_frame _ _ _ _ Hsave1) as Hframe.
  pose proof (frame_segment_lengths det data data1 Hframe) as Hlengths.
  destruct (save_inside data1 det b) as (data2 & Hsave2 & Hsegs2).
  - by apply frame_det_data_ensured with data.
  - unfold total_samples in *. by rewrite Hlengths.
  - exists data1, data2. split_and!; [done..|].
    by rewrite Hsegs2, Hlengths, Hsegs1.
Qed.

Lemma X6_save_twice_witness :
  ∃ data1 data2,
    save two_views "det0" (Np.VArr (Np.mk_ndarray Np.float64 [1; 3; 5]%R))
    = Ok data1
    ∧ save data1 "det0" (Np.VArr (Np.mk_ndarray Np.float64 [2; 4; 6]%R))
      = Ok data2
    ∧ det_segments data2 "det0"
      = [[0 + 1 + 2]; [0 + 3 + 4; 0 + 5 + 6]]%R.
Proof.
  destruct (X6_save_twice two_views "det0" [1; 3; 5]%R [2; 4; 6]%R)
    as (data1 & data2 & Hsave1 & Hsave2 & Hsegs).
  - unfold det_data_ensured. repeat constructor; by eexists.
  - vm_compute. lia.
  - vm_compute. lia.
  - exists data1, data2. split; [exact Hsave1|]. split; [exact Hsave2|].
    rewrite Hsegs. reflexivity.
Defined.

(** ** More on the pointing extraction *)

Lemma for_each_app {A B} (f : A → result B) (l1 l2 : list A) :
  for_each f (l1 ++ l2)
  = ys1 ← for_each f l1; ys2 ← for_each f l2; Ok (ys1 ++ ys2).
Proof.
  induction l1 as [|x l1 IH]; cbn.
  - by destruct (for_each f l2).
  - destruct (f x); cbn; [|done]. rewrite IH.
    destruct (for_each f l1); cbn; [|done]. by destruct (for_each f l2).
Qed.

Lemma for_each_impl {A B} (f g : A → result B) (l : list A) (ys : list B) :
  (∀ x y, x ∈ l → f x = Ok y → g x = Ok y) →
  for_each f l = Ok ys → for_each g l = Ok ys.
Proof.
  revert ys. induction l as [|x l IH]; intros ys Himpl; cbn; [done|].
  destruct (f x) as [y|] eqn:Hfx; cbn; [|done].
  destruct (for_each f l) as [ys'|] eqn:Hfl; cbn; [|done].
  intros [= <-]. rewrite (Himpl x y) by (done || left).
  cbn. rewrite (IH ys'); [done| |done].
  intros x' y' Hx'. apply Himpl. by right.
Qed.

Lemma broadcast_to_Forall {A} (P : A → Prop) (n : nat) (b b' : list A) :
  Np.broadcast_to n b = Ok b' → Forall P b → Forall P b'.
Proof.
  unfold Np.broadcast_to. case_decide; [by intros [= <-]|].
  destruct b as [|x [|? ?]]; try done. intros [= <-] Hb.
  apply Forall_replicate. by inversion Hb.
Qed.

Lemma mask_assign_unmasked {A} (a a' : list A) (flags : list Z) (x : A) :
  Forall (λ f, f = 0%Z) flags →
  Np.mask_assign a (nonzero flags) x = Ok a' → a' = a.
Proof.
  unfold Np.mask_assign, nonzero. case_decide as Hlen; [|done].
  rewrite length_fmap in Hlen. intros Hzero [= <-].
  revert flags Hlen Hzero. induction a as [|y a IH]; intros flags Hlen Hzero.
  - done.
  - destruct flags as [|f flags]; [done|].
    inversion Hzero as [|? ? -> Hzero']; subst. cbn. f_equal.
    apply IH; [by injection Hlen|done].
Qed.

Lemma mask_assign_lookup_false {A} (a a' : list A) (mask : list bool) (x y : A)
  (i : nat) :
  Np.mask_assign a mask x = Ok a' →
  mask !! i = Some false → a !! i = Some y → a' !! i = Some y.
Proof.
  unfold Np.mask_assign. case_decide; [|done]. intros [= <-] Hmask Ha.
  rewrite lookup_zip_with, Ha, Hmask. done.
Qed.

Section MorePointing.

Context (to_angles : quat → R * R * R).

(** X7: [get_pointing] works observation by observation.  On a list of
    observations split in two it returns the arrays of the first part
    followed by those of the second part, and it raises what the first part
    raises, or else what the second part raises. *)
Theorem X7_get_pointing_app (self : Traits) (data1 data2 : Data)
  (det : string) :
  get_pointing to_angles self (data1 ++ data2) det
  = '(theta1, phi1, psi1, psi_pol1) ← get_pointing to_angles self data1 det;
    '(theta2, phi2, psi2, psi_pol2) ← get_pointing to_angles self data2 det;
    Ok (theta1 ++ theta2, phi1 ++ phi2, psi1 ++ psi2, psi_pol1 ++ psi_pol2).
Proof.
  unfold get_pointing. rewrite for_each_app.
  destruct (for_each _ data1) as [per_obs1|]; cbn; [|done].
  destruct (for_each _ data2) as [per_obs2|]; cbn; [|done].
  unfold hstack. by rewrite join_app, !fmap_app, !join_app.
Qed.

Lemma view_flags_zero_masks (self : Traits) (det : string) (view : View)
  (flags : list Z) :
  shared_flag_mask self = 0%Z → det_flag_mask self = 0%Z →
  view_flags self det view = Ok (Some flags) →
  Forall (λ f, f = 0%Z) flags.
Proof.
  intros Hshared Hdet. unfold view_flags. rewrite Hshared, Hdet.
  assert (∀ l : list Z, Forall (λ f, f = 0%Z) ((λ f, Z.land f 0) <$> l))
    as Hzero.
  { intros l. apply Forall_fmap, Forall_forall. intros f _. cbn.
    apply Z.land_0_r. }
  destruct (apply_flags self); [|done].
  destruct (det_flags self) as [kd|].
  - destruct (det_flags_data view !! det) as [detflags|]; cbn; [|done].
    destruct (shared_flags self) as [ks|].
    + destruct (Np.inplace Z.lor _ _) as [fl|] eqn:Hor; cbn; [|done].
      intros [= <-]. unfold Np.inplace in Hor.
      destruct (Np.broadcast_to _ _) as [detflags'|] eqn:Hcast; [|done].
      cbn in Hor. injection Hor as <-.
      apply (broadcast_to_Forall (λ f, f = 0%Z)) in Hcast; [|done].
      pose proof (Hzero (shared_flags_data view)) as Hs.
      revert Hs Hcast. generalize ((λ f, Z.land f 0) <$> shared_flags_data view).
      intros l Hl. revert detflags'.
      induction Hl as [|s l -> _ IH]; intros detflags' Hd; [constructor|].
      destruct Hd as [|d detflags' -> Hd]; constructor; [done|by apply IH].
    + intros [= <-]. done.
  - destruct (shared_flags self) as [ks|]; [|done]. intros [= <-]. done.
Qed.

Lemma view_pointing_zero_masks (self : Traits) (fp : gmap string Row)
  (det : string) (view : View) (part : list R * list R * list R * list R) :
  shared_flag_mask self = 0%Z → det_flag_mask self = 0%Z →
  view_pointing to_angles self fp det view = Ok part →
  view_pointing to_angles (without_flags self) fp det view = Ok part.
Proof.
  intros Hshared Hdet. unfold view_pointing.
  destruct (view_flags self det view) as [flags|] eqn:Hflags; cbn; [|done].
  destruct (quats_data view !! det) as [quats|]; cbn; [|done].
  destruct flags as [fl|]; [|done].
  destruct (Np.mask_assign quats (nonzero fl) nullquat) as [masked|] eqn:Hmask;
    cbn; [|done].
  apply mask_assign_unmasked in Hmask as ->; [done|].
  by apply view_flags_zero_masks with self det view.
Qed.

(** X8: with both flag masks at zero (their default) applying the flags
    changes nothing: whatever [get_pointing] returns with [apply_flags] on,
    it returns with [apply_flags] off. *)
Theorem X8_zero_masks_flag_nothing (self : Traits) (data : Data)
  (det : string) (angles : list R * list R * list R * list R) :
  shared_flag_mask self = 0%Z → det_flag_mask self = 0%Z →
  get_pointing to_angles self data det = Ok angles →
  get_pointing to_angles (without_flags self) data det = Ok angles.
Proof.
  intros Hshared Hdet. unfold get_pointing.
  destruct (for_each (obs_pointing to_angles self det) data) as [per_obs|]
    eqn:Hobs; cbn; [|done].
  rewrite (for_each_impl (obs_pointing to_angles self det)
             (obs_pointing to_angles (without_flags self) det) data per_obs);
    [done| |done].
  intros obs parts _. unfold obs_pointing. case_bool_decide; [|done].
  apply for_each_impl. intros view part _.
  by apply view_pointing_zero_masks.
Qed.

End MorePointing.

Lemma masked_quats_unflagged (flags : list Z) (quats masked : list quat)
  (i : nat) (q : quat) :
  masked_quats (Some flags) quats = Ok masked →
  flags !! i = Some 0%Z → quats !! i = Some q →
  masked !! i = Some q.
Proof.
  cbn. intros Hmask Hflag Hq.
  eapply mask_assign_lookup_false; [exact Hmask| |exact Hq].
  unfold nonzero. by rewrite list_lookup_fmap, Hflag.
Qed.

Lemma _get_psi_pol_needs (fp : gmap string Row) (det : string) (psi_pol : R) :
  _get_psi_pol fp det = Ok psi_pol →
  ∃ props q, fp !! det = Some props ∧ col_pol_angle props = Some q.
Proof.
  unfold _get_psi_pol. destruct (fp !! det) as [props|]; [|done].
  destruct (col_pol_angle props) as [q|] eqn:Hangle; [by eauto|].
  by destruct (col_psi_pol props).
Qed.

Section PointingConditions.

Context (to_angles : quat → R * R * R).

Lemma view_pointing_needs (self : Traits) (fp : gmap string Row)
  (det : string) (view : View) (part : list R * list R * list R * list R) :
  view_pointing to_angles self fp det view = Ok part →
  dxx self = false
  ∧ is_Some (quats_data view !! det)
  ∧ ∃ props q, fp !! det = Some props ∧ col_pol_angle props = Some q.
Proof.
  destruct part as [[[theta phi] psi] psi_pol]. intros Hview.
  apply view_pointing_inv in Hview
    as (flags & quats & masked & eff & _ & Hquats & _ & Heff & _).
  split_and!; [|by eauto|].
  - destruct (dxx self) eqn:Hdxx; [|done].
    destruct (effective_psi_pol_dxx self fp det Hdxx) as [e He]. congruence.
  - unfold effective_psi_pol in Heff.
    destruct (_get_psi_pol fp det) as [psi_pol'|] eqn:Hpol; [|done].
    by eapply _get_psi_pol_needs.
Qed.

Lemma get_pointing_views (self : Traits) (data : Data) (det : string) :
  Forall (λ ov, ∃ part,
            view_pointing to_angles self (focalplane ov.1) det ov.2 = Ok part)
         (det_views data det) →
  ∃ angles, get_pointing to_angles self data det = Ok angles.
Proof.
  intros Hviews. unfold get_pointing.
  destruct (for_each_is_Ok (obs_pointing to_angles self det) data)
    as [per_obs ->]; [|cbn; eauto].
  induction data as [|obs data IH]; [constructor|].
  rewrite det_views_cons in Hviews. apply Forall_app in Hviews as [Hobs Hrest].
  constructor; [|by apply IH].
  unfold obs_pointing. case_bool_decide; [|eauto].
  apply for_each_is_Ok. apply Forall_forall. intros view Hview.
  rewrite Forall_forall in Hobs. apply (Hobs (obs, view)).
  apply list_elem_of_fmap. eauto.
Qed.

(** X9: what [get_pointing] needs.  It returns only if, for every view it
    visits, the operator runs in the Pxx frame ([dxx] off), the view has
    quaternions for the detector and the focal-plane row of the detector
    has a 'pol_angle' column; without flags and half-wave plate these
    conditions are also enough.  In particular, with the default [dxx=True]
    it returns only for a detector without any view. *)
Theorem X9_get_pointing_returns (self : Traits) (data : Data) (det : string) :
  ((∃ angles, get_pointing to_angles self data det = Ok angles) →
   Forall (λ ov, dxx self = false
                 ∧ is_Some (quats_data ov.2 !! det)
                 ∧ ∃ props q, focalplane ov.1 !! det = Some props
                              ∧ col_pol_angle props = Some q)
          (det_views data det))
  ∧ (apply_flags self = false → hwp_angle self = None →
     Forall (λ ov, dxx self = false
                   ∧ is_Some (quats_data ov.2 !! det)
                   ∧ ∃ props q, focalplane ov.1 !! det = Some props
                                ∧ col_pol_angle props = Some q)
            (det_views data det) →
     ∃ angles, get_pointing to_angles self data det = Ok angles)
  ∧ (dxx self = true →
     (∃ angles, get_pointing to_angles self data det = Ok angles) →
     det_views data det = []).
Proof.
  assert ((∃ angles, get_pointing to_angles self data det = Ok angles) →
          Forall (λ ov, dxx self = false
                        ∧ is_Some (quats_data ov.2 !! det)
                        ∧ ∃ props q, focalplane ov.1 !! det = Some props
                                     ∧ col_pol_angle props = Some q)
                 (det_views data det)) as Hneeds.
  { intros [[[[theta phi] psi] psi_pol] Hget].
    apply get_pointing_parts in Hget as (parts & Hparts & _).
    eapply Forall2_Forall_l; [exact Hparts|].
    apply Forall_forall. intros part _ ov Hview.
    by eapply view_pointing_needs. }
  split_and!; [done| |].
  - intros Hflags Hhwp Hviews. apply get_pointing_views.
    eapply Forall_impl; [exact Hviews|].
    intros ov (Hdxx & [quats Hquats] & Hrow).
    apply view_pointing_ready; [done|]. split; [done|].
    exists quats. split_and!; [done|..].
    + intros Happly. congruence.
    + intros Happly. congruence.
    + rewrite Hhwp. by intros [? ?].
  - intros Hdxx Hget. apply Hneeds in Hget.
    destruct (det_views data det) as [|ov ovs]; [done|].
    inversion Hget as [|? ? (Hdxx' & _)]. congruence.
Qed.

(** X10: flagging leaves the other samples alone.  With flag application on
    and both flag streams configured, a sample whose combined mask
    (shared flags AND [shared_flag_mask]) OR (detector flags AND
    [det_flag_mask]) is zero gets the theta and phi of its own quaternion,
    and the psi of its own quaternion minus the effective polarization
    angle. *)
Theorem X10_unflagged_samples_kept (self : Traits) (data : Data)
  (det : string) (ks kd : string) (theta phi psi psi_pol : list R) :
  apply_flags self = true →
  shared_flags self = Some ks → det_flags self = Some kd →
  get_pointing to_angles self data det = Ok (theta, phi, psi, psi_pol) →
  ∃ parts,
    theta = hstack (part_theta <$> parts)
    ∧ phi = hstack (part_phi <$> parts)
    ∧ psi = hstack (part_psi <$> parts)
    ∧ Forall2 (λ ov part, ∃ detflags eff,
         det_flags_data ov.2 !! det = Some detflags
         ∧ effective_psi_pol self (focalplane ov.1) det = Ok eff
         ∧ ∀ i s d q,
             shared_flags_data ov.2 !! i = Some s → detflags !! i = Some d →
             quat_rows det ov.2 !! i = Some q →
             Z.lor (Z.land s (shared_flag_mask self))
                   (Z.land d (det_flag_mask self)) = 0%Z →
             part_theta part !! i = Some (angle_theta (to_angles q))
             ∧ part_phi part !! i = Some (angle_phi (to_angles q))
             ∧ part_psi part !! i = Some (angle_psi (to_angles q) - eff)%R)
        (det_views data det) parts.
Proof.
  intros Happly Hshared Hdet Hget.
  apply get_pointing_parts in Hget as (parts & Hparts & -> & -> & -> & _).
  exists parts. split_and!; [done..|].
  eapply Forall2_impl; [exact Hparts|].
  intros [obs view] [[[th ph] ps] pp] Hview. cbn in *.
  apply view_pointing_inv in Hview
    as (flags & quats & masked & eff & Hf & Hq & Hm & Heff & -> & -> & -> & _).
  destruct (view_flags_both self det view ks kd flags)
    as (detflags & fl & Hdf & -> & Hfl); [done..|].
  exists detflags, eff. split_and!; [done..|].
  intros i s d q Hs Hd Hrow Hzero.
  unfold quat_rows in Hrow. rewrite Hq in Hrow. cbn in Hrow.
  assert (masked !! i = Some q) as Hkept.
  { eapply masked_quats_unflagged; [done| |done].
    rewrite <- Hzero. by eapply Hfl. }
  unfold part_theta, part_phi, part_psi. cbn.
  rewrite !list_lookup_fmap, Hkept. done.
Qed.

End PointingConditions.

Lemma X8_zero_masks_flag_nothing_witness :
  ∃ angles,
    get_pointing sample_to_angles zero_mask_traits flagged_data "det0"
    = Ok angles
    ∧ get_pointing sample_to_angles (without_flags zero_mask_traits)
                   flagged_data "det0"
      = Ok angles.
Proof.
  destruct (get_pointing_ready sample_to_angles zero_mask_traits flagged_data
              "det0" (flagged_data_ready zero_mask_traits eq_refl))
    as [angles Hget].
  exists angles. split; [exact Hget|].
  apply (X8_zero_masks_flag_nothing sample_to_angles zero_mask_traits
           flagged_data "det0" angles); [reflexivity|reflexivity|exact Hget].
Defined.

Lemma X10_unflagged_samples_kept_witness :
  ∃ theta phi psi psi_pol parts,
    get_pointing sample_to_angles flag_traits flagged_data "det0"
    = Ok (theta, phi, psi, psi_pol)
    ∧ theta = hstack (part_theta <$> parts).
Proof.
  destruct (get_pointing_ready sample_to_angles flag_traits flagged_data
              "det0" (flagged_data_ready flag_traits eq_refl))
    as [[[[theta phi] psi] psi_pol] Hget].
  destruct (X10_unflagged_samples_kept sample_to_angles flag_traits
              flagged_data "det0" "flags" "flags" theta phi psi psi_pol)
    as (parts & Htheta & _); [reflexivity|reflexivity|reflexivity|exact Hget|].
  exists theta, phi, psi, psi_pol, parts. split; [exact Hget|exact Htheta].
Defined.

(** ** More on the calibration *)

Lemma calibrate_views_shape (det : string) (epsilon : R) (vs : list View)
  (offset : nat) (dt : Np.dtype) (buf : list R) (st : nat * Np.value) :
  fold_each (calibrate_view det epsilon)
            (offset, Np.VArr (Np.mk_ndarray dt buf)) vs = Ok st →
  ∃ buf',
    st = (offset + sum_list (length ∘ stored det <$> vs),
          Np.VArr (Np.mk_ndarray dt buf'))
    ∧ length buf' = length buf
    ∧ ∀ i, i < offset ∨ offset + sum_list (length ∘ stored det <$> vs) ≤ i →
           buf' !! i = buf !! i.
Proof.
  revert offset buf. induction vs as [|view vs IH]; intros offset buf Hfold.
  - cbn in Hfold. injection Hfold as <-. exists buf. cbn.
    rewrite Nat.add_0_r. done.
  - cbn [fold_each] in Hfold.
    destruct (det_data_data view !! det) as [seg|] eqn:Hseg;
      [|by unfold calibrate_view in Hfold; rewrite Hseg in Hfold].
    rewrite (calibrate_view_step det epsilon view seg) in Hfold by done.
    cbn in Hfold. apply IH in Hfold as (buf' & -> & Hlen & Hout).
    exists buf'. cbn. rewrite (stored_Some det view seg) by done.
    split_and!.
    + f_equal. lia.
    + by rewrite Hlen, scale_slice_length.
    + intros i Hi. rewrite Hout by lia. rewrite scale_slice_lookup.
      rewrite bool_decide_eq_false_2 by lia. done.
Qed.

Lemma calibrate_data_shape (det : string) (data : Data) (offset : nat)
  (dt : Np.dtype) (buf : list R) (st : nat * Np.value) :
  fold_each (calibrate_obs det) (offset, Np.VArr (Np.mk_ndarray dt buf)) data
  = Ok st →
  ∃ buf',
    st = (offset + total_samples data det, Np.VArr (Np.mk_ndarray dt buf'))
    ∧ length buf' = length buf
    ∧ ∀ i, i < offset ∨ offset + total_samples data det ≤ i →
           buf' !! i = buf !! i.
Proof.
  revert offset buf. induction data as [|obs data IH]; intros offset buf Hfold.
  - cbn in Hfold. injection Hfold as <-. exists buf.
    unfold total_samples. cbn. rewrite Nat.add_0_r. done.
  - cbn [fold_each] in Hfold. rewrite total_samples_cons.
    destruct (calibrate_obs det _ obs) as [st1|] eqn:Hobs; [|done].
    cbn in Hfold. unfold calibrate_obs in Hobs.
    destruct (bool_decide (det ∈ local_detectors obs)).
    + destruct (_get_epsilon (focalplane obs) det) as [epsilon|]; [|done].
      cbn in Hobs.
      apply calibrate_views_shape in Hobs as (buf1 & -> & Hlen1 & Hout1).
      apply IH in Hfold as (buf' & -> & Hlen & Hout).
      exists buf'. split_and!.
      * f_equal. lia.
      * by rewrite Hlen.
      * intros i Hi. rewrite Hout by lia. apply Hout1. lia.
    + injection Hobs as <-.
      apply IH in Hfold as (buf' & -> & Hlen & Hout).
      exists buf'. split_and!; [done..|]. intros i Hi. apply Hout. lia.
Qed.

Lemma calibrate_data_is_Ok (det : string) (data : Data) (offset : nat)
  (dt : Np.dtype) (buf : list R) :
  det_data_ensured data det → in_focalplane data det →
  ∃ st, fold_each (calibrate_obs det)
                  (offset, Np.VArr (Np.mk_ndarray dt buf)) data = Ok st.
Proof.
  revert offset buf.
  induction data as [|obs data IH]; intros offset buf Hensured Hfp;
    [by eexists|].
  unfold det_data_ensured in Hensured. rewrite det_views_cons in Hensured.
  apply Forall_app in Hensured as [Hobs Hrest].
  inversion Hfp as [|? ? Hrow Hfp']; subst.
  cbn [fold_each].
  destruct (decide (det ∈ local_detectors obs)) as [Hlocal|Hlocal].
  - destruct (_get_epsilon_is_Ok (focalplane obs) det (Hrow Hlocal))
      as [epsilon Heps].
    rewrite (calibrate_obs_local det epsilon) by done.
    rewrite calibrate_views_scale.
    + cbn. by apply IH.
    + rewrite bool_decide_eq_true_2 in Hobs by done.
      by rewrite Forall_fmap in Hobs.
  - rewrite calibrate_obs_skip by done. cbn. by apply IH.
Qed.

Lemma calibrate_signal_shape {Beam : Type} (normalized : Beam → bool)
  (self : Traits) (data : Data) (det : string) (beam : Beam)
  (dt : Np.dtype) (buf : list R) (cd : Np.value) :
  calibrate_signal normalized self data det beam
                   (Np.VArr (Np.mk_ndarray dt buf)) = Ok cd →
  ∃ buf',
    cd = Np.VArr (Np.mk_ndarray dt buf')
    ∧ length buf' = length buf
    ∧ ∀ i, total_samples data det ≤ i → buf' !! i = buf !! i.
Proof.
  unfold calibrate_signal.
  destruct (negb (calibrate self) || normalized beam).
  - intros [= <-]. by exists buf.
  - destruct (fold_each _ _ data) as [st|] eqn:Hfold; [|done].
    cbn. intros [= <-].
    apply calibrate_data_shape in Hfold as (buf' & -> & Hlen & Hout).
    exists buf'. split_and!; [done..|]. intros i Hi. apply Hout. lia.
Qed.

Lemma calibrate_signal_is_Ok {Beam : Type} (normalized : Beam → bool)
  (self : Traits) (data : Data) (det : string) (beam : Beam)
  (dt : Np.dtype) (buf : list R) :
  det_data_ensured data det → in_focalplane data det →
  ∃ cd, calibrate_signal normalized self data det beam
                         (Np.VArr (Np.mk_ndarray dt buf)) = Ok cd.
Proof.
  intros Hensured Hfp. unfold calibrate_signal.
  destruct (negb (calibrate self) || normalized beam); [by eexists|].
  destruct (calibrate_data_is_Ok det data 0 dt buf Hensured Hfp) as [st ->].
  by eexists.
Qed.

(** X11: [calibrate_signal] on an array buffer.  Whenever it returns, the
    buffer has kept its length and element type, and every entry past the
    samples of the detector is what it was; and it does return, whatever
    the length of the buffer, once the timestreams of the detector are
    ensured and the focal planes describe it: a buffer that is too short or
    too long is not noticed here. *)
Theorem X11_calibrate_signal_buffer {Beam : Type} (normalized : Beam → bool)
  (self : Traits) (data : Data) (det : string) (beam : Beam)
  (dt : Np.dtype) (buf : list R) :
  (∀ cd,
     calibrate_signal normalized self data det beam
                      (Np.VArr (Np.mk_ndarray dt buf)) = Ok cd →
     ∃ buf',
       cd = Np.VArr (Np.mk_ndarray dt buf')
       ∧ length buf' = length buf
       ∧ ∀ i, total_samples data det ≤ i → buf' !! i = buf !! i)
  ∧ (det_data_ensured data det → in_focalplane data det →
     ∃ cd, calibrate_signal normalized self data det beam
                            (Np.VArr (Np.mk_ndarray dt buf)) = Ok cd).
Proof.
  split.
  - intros cd. apply calibrate_signal_shape.
  - apply calibrate_signal_is_Ok.
Qed.

(** ** The two strategies, from pointing to storage *)

Lemma aligned_total (data : Data) (det : string) :
  timestreams_aligned data det →
  total_samples data det
  = sum_list ((λ ov, length (quat_rows det ov.2)) <$> det_views data det).
Proof.
  intros Haligned. unfold total_samples, det_segments.
  rewrite <- list_fmap_compose. f_equal.
  apply Forall_fmap_ext_1. eapply Forall_impl; [exact Haligned|]. done.
Qed.

Lemma calibrate_signal_uniform {Beam : Type} (normalized : Beam → bool)
  (self : Traits) (data : Data) (det : string) (beam : Beam) (epsilon : R)
  (signal : list R) :
  det_data_ensured data det →
  Forall (λ obs, det ∈ local_detectors obs →
                 _get_epsilon (focalplane obs) det = Ok epsilon) data →
  length signal = total_samples data det →
  calibrate_signal normalized self data det beam
                   (Np.VArr (Np.mk_ndarray Np.float64 signal))
  = Ok (Np.VArr (Np.mk_ndarray Np.float64
          (calibrated normalized self beam epsilon signal))).
Proof.
  intros Hensured Heps Hlen. unfold calibrate_signal, calibrated.
  destruct (negb (calibrate self) || normalized beam); [done|].
  rewrite (calibrate_data_scale det epsilon data 0) by done. cbn.
  rewrite scale_slice_whole by lia. done.
Qed.

Lemma calibrated_length {Beam : Type} (normalized : Beam → bool)
  (self : Traits) (beam : Beam) (epsilon : R) (signal : list R) :
  length (calibrated normalized self beam epsilon signal) = length signal.
Proof.
  unfold calibrated. destruct (negb (calibrate self) || normalized beam);
    [done|apply length_fmap].
Qed.

Section Strategies.

Context (to_angles : quat → R * R * R).
Context {Sky Beam : Type}.
Context (normalized : Beam → bool).
Context (convolver : Sky → Beam → Detector → list (R * R * R) → list R).

Lemma get_pointing_total (self : Traits) (data : Data) (det : string)
  (theta phi psi psi_pol : list R) :
  get_pointing to_angles self data det = Ok (theta, phi, psi, psi_pol) →
  length theta
  = sum_list ((λ ov, length (quat_rows det ov.2)) <$> det_views data det).
Proof.
  intros Hget.
  apply get_pointing_parts in Hget as (parts & Hparts & -> & _).
  unfold hstack. rewrite length_join, <- list_fmap_compose. f_equal.
  symmetry. apply (Forall2_fmap_eq (λ ov, length (quat_rows det ov.2))
                                   (length ∘ part_theta)).
  eapply Forall2_impl; [exact Hparts|].
  intros [obs view] [[[th ph] ps] pp] Hview. cbn in *.
  apply view_pointing_inv in Hview
    as (flags & quats & masked & eff & _ & Hq & Hm & _ & -> & _).
  apply masked_quats_length in Hm.
  unfold quat_rows, part_theta. rewrite Hq. cbn.
  rewrite !length_fmap. by rewrite Hm.
Qed.

(** The tail of both strategies: calibration, then accumulation. *)
Lemma calibrate_then_save (self : Traits) (data : Data) (det : string)
  (beam : Beam) (epsilon : R) (signal : list R) :
  det_data_ensured data det →
  Forall (λ obs, det ∈ local_detectors obs →
                 _get_epsilon (focalplane obs) det = Ok epsilon) data →
  length signal = total_samples data det →
  ∃ data',
    (convolved_data ← calibrate_signal normalized self data det beam
                         (Np.VArr (Np.mk_ndarray Np.float64 signal));
     save data det convolved_data) = Ok data'
    ∧ det_segments data' det
      = zip_with (zip_with Rplus) (det_segments data det)
          (reshape (length <$> det_segments data det)
                   (calibrated normalized self beam epsilon signal)).
Proof.
  intros Hensured Heps Hlen.
  rewrite (calibrate_signal_uniform normalized self data det beam epsilon)
    by done.
  cbn. apply save_inside; [done|]. rewrite calibrated_length. lia.
Qed.

(** X12: what [SimConviqt] stores for one detector.  For a detector with at
    least one sample, timestreams that are ensured and have one entry per
    quaternion row, one leakage [epsilon] in all focal planes and a
    convolver that fills one signal entry per pointing row, the operator
    returns, and every view of the detector holds its former content plus
    its run of the convolved signal, computed on the pointing array of
    [get_buffer] and rescaled by 2 / (1 + epsilon) unless [calibrate] is
    off or the beam is normalized. *)
Theorem X12_SimConviqt_accumulates (self : Traits) (data : Data)
  (det : string) (sky : Sky) (beam : Beam) (epsilon : R)
  (theta phi psi psi_pol : list R) :
  (∀ sky beam detector pnt,
      length (convolver sky beam detector pnt) = length pnt) →
  get_pointing to_angles self data det = Ok (theta, phi, psi, psi_pol) →
  0 < length theta →
  det_data_ensured data det → timestreams_aligned data det →
  Forall (λ obs, det ∈ local_detectors obs →
                 _get_epsilon (focalplane obs) det = Ok epsilon) data →
  ∃ pnt data',
    get_buffer theta phi psi = Ok pnt
    ∧ SimConviqt_exec_detector to_angles normalized convolver self data det
                               sky beam
      = Ok data'
    ∧ det_segments data' det
      = zip_with (zip_with Rplus) (det_segments data det)
          (reshape (length <$> det_segments data det)
             (calibrated normalized self beam epsilon
                         (convolver sky beam (get_detector det) pnt))).
Proof.
  intros Hconv Hget Hrows Hensured Haligned Heps.
  destruct (get_pointing_lengths to_angles self data det theta phi psi psi_pol
              Hget) as (Hphi & Hpsi & _).
  destruct (get_buffer_rows theta phi psi Hphi Hpsi) as (pnt & Hbuf & Hpnt).
  destruct (calibrate_then_save self data det beam epsilon
              (convolver sky beam (get_detector det) pnt))
    as (data' & Hstore & Hsegs); [done..| |].
  { rewrite Hconv, Hpnt, (aligned_total data det) by done.
    by eapply get_pointing_total. }
  exists pnt, data'. split_and!; [done| |done].
  unfold SimConviqt_exec_detector. rewrite Hget. cbn. rewrite Hbuf. cbn.
  unfold convolve. rewrite bool_decide_eq_true_2 by lia. exact Hstore.
Qed.

(** X13: what [SimWeightedConviqt] stores for one detector.  Under the
    conditions of X12 the operator returns, and every view of the detector
    holds its former content plus its run of
    conv_I + cos(2 psi_pol) conv_Q + sin(2 psi_pol) conv_U, the three
    convolutions being computed on the same pointing array; the sum is
    rescaled by 2 / (1 + epsilon) unless [calibrate] is off or the
    intensity beam is normalized. *)
Theorem X13_SimWeightedConviqt_accumulates (self : Traits) (data : Data)
  (det : string) (sky : Sky) (beamI00 beam0I0 beam00I : Beam) (epsilon : R)
  (theta phi psi psi_pol : list R) :
  (∀ sky beam detector pnt,
      length (convolver sky beam detector pnt) = length pnt) →
  get_pointing to_angles self data det = Ok (theta, phi, psi, psi_pol) →
  0 < length theta →
  det_data_ensured data det → timestreams_aligned data det →
  Forall (λ obs, det ∈ local_detectors obs →
                 _get_epsilon (focalplane obs) det = Ok epsilon) data →
  ∃ pnt data',
    get_buffer theta phi psi = Ok pnt
    ∧ SimWeightedConviqt_exec_detector to_angles normalized convolver self
                                       data det sky beamI00 beam0I0 beam00I
      = Ok data'
    ∧ det_segments data' det
      = zip_with (zip_with Rplus) (det_segments data det)
          (reshape (length <$> det_segments data det)
             (calibrated normalized self beamI00 epsilon
                (recombined psi_pol
                   (convolver sky beamI00 (get_detector det) pnt)
                   (convolver sky beam0I0 (get_detector det) pnt)
                   (convolver sky beam00I (get_detector det) pnt)))).
Proof.
  intros Hconv Hget Hrows Hensured Haligned Heps.
  destruct (get_pointing_lengths to_angles self data det theta phi psi psi_pol
              Hget) as (Hphi & Hpsi & Hpol).
  destruct (get_buffer_rows theta phi psi Hphi Hpsi) as (pnt & Hbuf & Hpnt).
  destruct (calibrate_then_save self data det beamI00 epsilon
              (recombined psi_pol
                 (convolver sky beamI00 (get_detector det) pnt)
                 (convolver sky beam0I0 (get_detector det) pnt)
                 (convolver sky beam00I (get_detector det) pnt)))
    as (data' & Hstore & Hsegs); [done..| |].
  { unfold recombined.
    rewrite !length_zip_with, !length_fmap, !Hconv, Hpol, Hpnt.
    rewrite (aligned_total data det) by done.
    rewrite <- (get_pointing_total self data det theta phi psi psi_pol Hget).
    lia. }
  exists pnt, data'. split_and!; [done| |done].
  unfold SimWeightedConviqt_exec_detector. rewrite Hget. cbn.
  rewrite (weighted_signal_rows convolver det sky beamI00 beam0I0 beam00I
             theta phi psi psi_pol pnt) by (done || lia).
  exact Hstore.
Qed.

End Strategies.

Lemma two_views_pointing :
  get_pointing sample_to_angles plain_traits two_views "det0"
  = Ok ([0; 0; 0], [0; 0; 0], [0 - 1; 0 - 1; 0 - 1], [1 * 1; 1 * 1; 1 * 1])%R.
Proof. vm_compute. reflexivity. Qed.

Lemma hwp_data_pointing :
  get_pointing sample_to_angles hwp_traits hwp_data "det0"
  = Ok ([0; 0], [0; 0], [0 - 0; 0 - 0],
        [1 * 0 + 2 * 0; 1 * 0 + 2 * (PI / 8)])%R.
Proof. vm_compute. reflexivity. Qed.

Lemma X12_SimConviqt_accumulates_witness :
  ∃ data',
    SimConviqt_exec_detector sample_to_angles (λ _ : unit, false)
                             ones_convolver plain_traits two_views "det0" () ()
    = Ok data'
    ∧ det_segments data' "det0"
      = [[0 + 1 * (2 / (1 + 0))];
         [0 + 1 * (2 / (1 + 0)); 0 + 1 * (2 / (1 + 0))]]%R.
Proof.
  destruct (X12_SimConviqt_accumulates sample_to_angles (λ _ : unit, false)
              ones_convolver plain_traits two_views "det0" () () 0%R _ _ _ _
              (λ _ _ _ pnt, length_replicate (length pnt) 1%R)
              two_views_pointing)
    as (pnt & data' & Hbuf & Hexec & Hsegs).
  - cbn. lia.
  - unfold det_data_ensured. repeat constructor; by eexists.
  - repeat constructor.
  - repeat constructor.
  - exists data'. split; [exact Hexec|]. rewrite Hsegs.
    destruct (get_buffer_rows [0; 0; 0]%R [0; 0; 0]%R [0 - 1; 0 - 1; 0 - 1]%R)
      as (pnt' & Hbuf' & Hlen); [reflexivity..|].
    rewrite Hbuf in Hbuf'. injection Hbuf' as <-.
    unfold ones_convolver. rewrite Hlen. reflexivity.
Defined.

Lemma X13_SimWeightedConviqt_accumulates_witness :
  ∃ data',
    SimWeightedConviqt_exec_detector sample_to_angles (λ _ : unit, false)
                                     ones_convolver hwp_traits hwp_data "det0"
                                     () () () ()
    = Ok data'
    ∧ length <$> det_segments data' "det0" = [2].
Proof.
  destruct (X13_SimWeightedConviqt_accumulates sample_to_angles
              (λ _ : unit, false) ones_convolver hwp_traits hwp_data "det0"
              () () () () 0%R _ _ _ _
              (λ _ _ _ pnt, length_replicate (length pnt) 1%R)
              hwp_data_pointing)
    as (pnt & data' & Hbuf & Hexec & Hsegs).
  - cbn. lia.
  - unfold det_data_ensured. repeat constructor; by eexists.
  - repeat constructor.
  - repeat constructor.
  - exists data'. split; [exact Hexec|]. rewrite Hsegs.
    destruct (get_buffer_rows [0; 0]%R [0; 0]%R [0 - 0; 0 - 0]%R)
      as (pnt' & Hbuf' & Hlen); [reflexivity..|].
    rewrite Hbuf in Hbuf'. injection Hbuf' as <-.
    unfold ones_convolver. rewrite Hlen. reflexivity.
Defined.

(** ** Views without samples *)

Lemma calibrate_None (det : string) (data : Data) (offset : nat) :
  det_views data det ≠ [] →
  det_data_ensured data det → in_focalplane data det →
  fold_each (calibrate_obs det) (offset, Np.VNone) data
  = Raise not_subscriptable.
Proof.
  induction data as [|obs data IH]; intros Hviews Hensured Hfp; [done|].
  unfold det_data_ensured in Hensured. rewrite det_views_cons in *.
  apply Forall_app in Hensured as [Hobs Hrest].
  inversion Hfp as [|? ? Hrow Hfp']; subst.
  cbn [fold_each].
  destruct (decide (det ∈ local_detectors obs)) as [Hlocal|Hlocal].
  - rewrite bool_decide_eq_true_2 in Hviews, Hobs by done.
    destruct (_get_epsilon_is_Ok (focalplane obs) det (Hrow Hlocal))
      as [epsilon Heps].
    rewrite (calibrate_obs_local det epsilon) by done.
    destruct (views obs) as [|view vs].
    + cbn. by apply IH.
    + inversion Hobs as [|? ? [seg Hseg] _]; subst. cbn in Hseg.
      cbn. unfold calibrate_view. rewrite Hseg. done.
  - rewrite bool_decide_eq_false_2 in Hviews by done.
    rewrite calibrate_obs_skip by done. cbn. by apply IH.
Qed.

Lemma save_unsubscriptable (det : string) (data : Data) :
  det_views data det ≠ [] → det_data_ensured data det →
  save data det Np.VNone = Raise not_subscriptable.
Proof.
  intros Hviews Hensured. unfold save. rewrite save_obs_flat.
  unfold det_data_ensured in Hensured.
  destruct (det_views data det) as [|ov ovs]; [done|].
  inversion Hensured as [|? ? [seg Hseg] _]; subst.
  cbn. unfold save_view. rewrite Hseg. done.
Qed.

Lemma save_object (det : string) (data : Data) (buf : list R) :
  det_views data det ≠ [] → det_data_ensured data det →
  save data det (Np.VArr (Np.mk_ndarray Np.object buf))
  = Raise (TypeError "Cannot cast ufunc 'add' output from dtype('O') to dtype('float64')").
Proof.
  intros Hviews Hensured. unfold save. rewrite save_obs_flat.
  unfold det_data_ensured in Hensured.
  destruct (det_views data det) as [|ov ovs]; [done|].
  inversion Hensured as [|? ? [seg Hseg] _]; subst.
  cbn. unfold save_view. rewrite Hseg. done.
Qed.

Section EmptyViews.

Context (to_angles : quat → R * R * R).
Context {Sky Beam : Type}.
Context (normalized : Beam → bool).
Context (convolver : Sky → Beam → Detector → list (R * R * R) → list R).

(** X14: views without samples are not a no-op for [SimConviqt].  When the
    detector has views but [get_pointing] finds no sample in them, the
    convolution result is [None], and the first view that
    [calibrate_signal] or [save] visits subscripts it: the operator raises
    [TypeError], whether the calibration is on or off. *)
Theorem X14_SimConviqt_empty_views (self : Traits) (data : Data)
  (det : string) (sky : Sky) (beam : Beam) (phi psi psi_pol : list R) :
  get_pointing to_angles self data det = Ok ([], phi, psi, psi_pol) →
  det_views data det ≠ [] →
  det_data_ensured data det → in_focalplane data det →
  SimConviqt_exec_detector to_angles normalized convolver self data det
                           sky beam
  = Raise not_subscriptable.
Proof.
  intros Hget Hviews Hensured Hfp.
  unfold SimConviqt_exec_detector. rewrite Hget. cbn.
  assert (get_buffer [] phi psi = Ok []) as -> by done. cbn.
  assert (convolve convolver sky beam (get_detector det) [] = Np.VNone)
    as -> by done.
  unfold calibrate_signal.
  destruct (negb (calibrate self) || normalized beam); cbn.
  - by apply save_unsubscriptable.
  - by rewrite calibrate_None.
Qed.

(** X15: nor for [SimWeightedConviqt].  In the same situation the three
    convolution results are [None], their recombination with the empty
    weights is an empty array of Python objects, which the calibration
    passes, and the first view that [save] visits cannot add it to its
    float64 timestream: the operator raises numpy's casting [TypeError]. *)
Theorem X15_SimWeightedConviqt_empty_views (self : Traits) (data : Data)
  (det : string) (sky : Sky) (beamI00 beam0I0 beam00I : Beam)
  (phi psi psi_pol : list R) :
  get_pointing to_angles self data det = Ok ([], phi, psi, psi_pol) →
  det_views data det ≠ [] →
  det_data_ensured data det → in_focalplane data det →
  SimWeightedConviqt_exec_detector to_angles normalized convolver self data
                                   det sky beamI00 beam0I0 beam00I
  = Raise (TypeError "Cannot cast ufunc 'add' output from dtype('O') to dtype('float64')").
Proof.
  intros Hget Hviews Hensured Hfp.
  destruct (get_pointing_lengths to_angles self data det [] phi psi psi_pol
              Hget) as (Hphi & Hpsi & Hpol).
  destruct phi; [|done]. destruct psi; [|done]. destruct psi_pol; [|done].
  unfold SimWeightedConviqt_exec_detector. rewrite Hget. cbn.
  assert (weighted_signal convolver det sky beamI00 beam0I0 beam00I [] [] [] []
          = Ok (Np.VArr (Np.mk_ndarray Np.object []))) as -> by done.
  cbn.
  destruct (calibrate_signal_is_Ok normalized self data det beamI00
              Np.object [] Hensured Hfp) as [cd Hcal].
  rewrite Hcal. cbn.
  apply calibrate_signal_shape in Hcal as (buf' & -> & _).
  by apply save_object.
Qed.

End EmptyViews.

Lemma empty_view_pointing :
  get_pointing sample_to_angles plain_traits empty_view_data "det0"
  = Ok ([], [], [], []).
Proof. vm_compute. reflexivity. Qed.

Lemma empty_view_data_ready :
  det_views empty_view_data "det0" ≠ []
  ∧ det_data_ensured empty_view_data "det0"
  ∧ in_focalplane empty_view_data "det0".
Proof.
  split_and!.
  - discriminate.
  - unfold det_data_ensured. repeat constructor. by eexists.
  - repeat constructor. intros _. by eexists.
Defined.

Lemma X14_SimConviqt_empty_views_witness :
  SimConviqt_exec_detector sample_to_angles (λ _ : unit, false) ones_convolver
                           plain_traits empty_view_data "det0" () ()
  = Raise not_subscriptable.
Proof.
  apply (X14_SimConviqt_empty_views sample_to_angles (λ _ : unit, false)
           ones_convolver plain_traits empty_view_data "det0" () () [] [] []
           empty_view_pointing);
    apply empty_view_data_ready.
Defined.

Lemma X15_SimWeightedConviqt_empty_views_witness :
  SimWeightedConviqt_exec_detector sample_to_angles (λ _ : unit, false)
                                   ones_convolver plain_traits empty_view_data
                                   "det0" () () () ()
  = Raise (TypeError "Cannot cast ufunc 'add' output from dtype('O') to dtype('float64')").
Proof.
  apply (X15_SimWeightedConviqt_empty_views sample_to_angles
           (λ _ : unit, false) ones_convolver plain_traits empty_view_data
           "det0" () () () () [] [] [] empty_view_pointing);
    apply empty_view_data_ready.
Defined.

(** ** Which detectors are scheduled *)

Section Scheduled.

Context (select_local_detectors :
           Observation → option (list string) → list string).

Lemma local_dets_elem_of (detectors : option (list string)) (data : Data)
  (det : string) :
  det ∈ local_dets select_local_detectors detectors data
  ↔ ∃ obs, obs ∈ data ∧ det ∈ select_local_detectors obs detectors.
Proof.
  unfold local_dets.
  assert (∀ (l : list string) (X : gset string),
            det ∈ foldl (λ my_dets d, {[d]} ∪ my_dets) X l
            ↔ det ∈ X ∨ det ∈ l) as Hinner.
  { induction l as [|d l IH]; intros X; cbn.
    - rewrite elem_of_nil. tauto.
    - rewrite IH, elem_of_union, elem_of_singleton, elem_of_cons. tauto. }
  assert (∀ X : gset string,
            det ∈ foldl (λ my_dets obs,
                           foldl (λ my_dets d, {[d]} ∪ my_dets) my_dets
                                 (select_local_detectors obs detectors))
                        X data
            ↔ det ∈ X
              ∨ ∃ obs, obs ∈ data ∧ det ∈ select_local_detectors obs detectors)
    as Houter.
  { induction data as [|obs data IH]; intros X; cbn.
    - split; [by left|]. intros [?|(obs & Hobs & _)]; [done|].
      by apply elem_of_nil in Hobs.
    - rewrite IH, Hinner. split.
      + intros [[?|?]|(obs' & ? & ?)]; [by left| |].
        * right. exists obs. split; [left|done].
        * right. exists obs'. split; [by right|done].
      + intros [?|(obs' & Hobs' & ?)]; [by left; left|].
        apply elem_of_cons in Hobs' as [->|?]; [by left; right|].
        right. by exists obs'. }
  rewrite Houter. split; [|by right].
  intros [Hempty|?]; [|done]. by apply elem_of_empty in Hempty.
Qed.

(** X16: which detectors the operator processes.  On every process of the
    communicator [_get_all_detectors] returns one list, and a detector is
    in it exactly when some observation of some process selects it among
    its local detectors: a process also gets the detectors that only the
    other processes hold. *)
Theorem X16_scheduled_detectors (detectors : option (list string))
  (world : list Data) (rank : nat) :
  rank < length world →
  ∃ all_dets,
    _get_all_detectors select_local_detectors detectors world rank
    = Some (DList all_dets)
    ∧ ∀ det,
        det ∈ all_dets
        ↔ ∃ data obs,
            data ∈ world ∧ obs ∈ data
            ∧ det ∈ select_local_detectors obs detectors.
Proof.
  intros Hrank. eexists. split; [by apply _get_all_detectors_sorted|].
  intros det. rewrite sorted_elem_of. unfold all_local_dets.
  rewrite elem_of_union_list. split.
  - intros (X & HX & Hdet). apply list_elem_of_fmap in HX as (data & -> & Hdata).
    apply local_dets_elem_of in Hdet as (obs & Hobs & Hsel).
    by exists data, obs.
  - intros (data & obs & Hdata & Hobs & Hsel).
    exists (local_dets select_local_detectors detectors data). split.
    + apply list_elem_of_fmap. by exists data.
    + apply local_dets_elem_of. by exists obs.
Qed.

End Scheduled.

Lemma X16_scheduled_detectors_witness :
  ∃ all_dets,
    _get_all_detectors select_all None world_a 0 = Some (DList all_dets)
    ∧ ("d3" ∈ all_dets
       ↔ ∃ data obs, data ∈ world_a ∧ obs ∈ data ∧ "d3" ∈ select_all obs None).
Proof.
  destruct (X16_scheduled_detectors select_all None world_a 0)
    as (all_dets & Hall & Hdets).
  - cbn. lia.
  - exists all_dets. split; [exact Hall|apply Hdets].
Defined.

(** ** One detector at a time *)

Section DetectorLoop.

Context (to_angles : quat → R * R * R).
Context {Sky Beam : Type}.
Context (normalized : Beam → bool).
Context (convolver : Sky → Beam → Detector → list (R * R * R) → list R).
Context (detector_pointing_apply : Data → list string → result Data).
Context (format : option string → string → option Z → result string).
Context (get_sky : string → result Sky).
Context (get_beam : string → result Beam).

Lemma exec_detector_saves (self : Traits) (data data' : Data) (det : string)
  (sky : Sky) (beam beamI00 beam0I0 beam00I : Beam) :
  SimConviqt_exec_detector to_angles normalized convolver self data det
                           sky beam = Ok data'
  ∨ SimWeightedConviqt_exec_detector to_angles normalized convolver self
                                     data det sky beamI00 beam0I0 beam00I
    = Ok data' →
  ∃ cd, save data det cd = Ok data'.
Proof.
  intros [Hexec|Hexec].
  - unfold SimConviqt_exec_detector in Hexec.
    destruct (get_pointing _ _ _ _) as [[[[theta phi] psi] psi_pol]|];
      [|done].
    cbn in Hexec. destruct (get_buffer _ _ _) as [pnt|]; [|done].
    cbn in Hexec. destruct (calibrate_signal _ _ _ _ _ _) as [cd|]; [|done].
    by exists cd.
  - unfold SimWeightedConviqt_exec_detector in Hexec.
    destruct (get_pointing _ _ _ _) as [[[[theta phi] psi] psi_pol]|];
      [|done].
    cbn in Hexec. destruct (weighted_signal _ _ _ _ _ _ _ _ _ _) as [cd0|];
      [|done].
    cbn in Hexec. destruct (calibrate_signal _ _ _ _ _ _) as [cd|]; [|done].
    by exists cd.
Qed.

(** X17: the two writes of the detector loop.  One pass over [det], in
    [SimConviqt] as in [SimWeightedConviqt], changes the observations in
    two steps only: the pointing operator expands the pointing of [det],
    and the rest of the body writes the timestreams of [det].  Whenever
    the pass returns, the pointing operator has returned, and the
    observations differ from the ones it left at most in the timestreams
    of [det]: the timestreams of every other detector and what
    [get_pointing] returns are the same as after the expansion; so if the
    pointing operator leaves the timestreams alone, the pass changes the
    timestreams of no other detector. *)
Theorem X17_detector_body_frame (self : Traits) (files : FileTraits)
  (data : Data) (det : string) :
  ∀ data',
    SimConviqt_loop_body to_angles normalized convolver
                         detector_pointing_apply format get_sky get_beam
                         self files data det = Ok data'
    ∨ SimWeightedConviqt_loop_body to_angles normalized convolver
                                   detector_pointing_apply format get_sky
                                   get_beam self files data det = Ok data' →
    ∃ expanded,
      detector_pointing_apply data [det] = Ok expanded
      ∧ Forall2 (same_but_timestreams det) expanded data'
      ∧ (∀ d, d ≠ det → det_segments data' d = det_segments expanded d)
      ∧ (∀ self' d,
           get_pointing to_angles self' data' d
           = get_pointing to_angles self' expanded d)
      ∧ ((∀ d, det_segments expanded d = det_segments data d) →
         ∀ d, d ≠ det → det_segments data' d = det_segments data d).
Proof.
  intros data' Hbody.
  assert (∃ expanded cd,
            detector_pointing_apply data [det] = Ok expanded
            ∧ save expanded det cd = Ok data') as (expanded & cd & Happly & Hsave).
  { unfold SimConviqt_loop_body, SimWeightedConviqt_loop_body in Hbody.
    destruct (detector_pointing_apply data [det]) as [expanded|]; cbn in Hbody;
      [|by destruct Hbody].
    destruct (input_file format (sky_file_dict files) _ _ det) as [sky_file'|];
      cbn in Hbody; [|by destruct Hbody].
    destruct (get_sky sky_file') as [sky|]; cbn in Hbody; [|by destruct Hbody].
    destruct (input_file format (beam_file_dict files) _ _ det)
      as [beam_file'|]; cbn in Hbody; [|by destruct Hbody].
    destruct Hbody as [Hbody|Hbody].
    - destruct (get_beam beam_file') as [beam|]; cbn in Hbody; [|done].
      destruct (exec_detector_saves self expanded data' det sky beam beam
                  beam beam (or_introl Hbody)) as [cd Hsave].
      by exists expanded, cd.
    - destruct (get_beam (replace_from ".fits" "_I000.fits" 0 beam_file'))
        as [beamI00|]; cbn in Hbody; [|done].
      destruct (get_beam (replace_from ".fits" "_0I00.fits" 0 beam_file'))
        as [beam0I0|]; cbn in Hbody; [|done].
      destruct (get_beam (replace_from ".fits" "_00I0.fits" 0 beam_file'))
        as [beam00I|]; cbn in Hbody; [|done].
      destruct (exec_detector_saves self expanded data' det sky beamI00
                  beamI00 beam0I0 beam00I (or_intror Hbody)) as [cd Hsave].
      by exists expanded, cd. }
  apply save_frame in Hsave. exists expanded. split_and!; [done..| | |].
  - intros d Hd. by apply frame_det_segments_other with det.
  - intros self' d. by apply frame_get_pointing with det.
  - intros Hkept d Hd. rewrite <- Hkept.
    by apply frame_det_segments_other with det.
Qed.

End DetectorLoop.

Lemma two_views_exec :
  ∃ data',
    SimConviqt_exec_detector sample_to_angles (λ _ : unit, false)
                             ones_convolver plain_traits two_views "det0" () ()
    = Ok data'.
Proof.
  destruct (calibrate_then_save (λ _ : unit, false) plain_traits two_views
              "det0" () 0%R [1; 1; 1]%R) as (data' & Hstore & _).
  - unfold det_data_ensured. repeat constructor; by eexists.
  - repeat constructor.
  - reflexivity.
  - exists data'. unfold SimConviqt_exec_detector.
    rewrite two_views_pointing. exact Hstore.
Qed.

Lemma X17_detector_body_frame_witness :
  ∃ data',
    SimConviqt_loop_body sample_to_angles (λ _ : unit, false) ones_convolver
                         pointing_expanded sample_format sample_load
                         sample_load plain_traits sample_files two_views
                         "det0"
    = Ok data'
    ∧ ∀ d, d ≠ "det0" → det_segments data' d = det_segments two_views d.
Proof.
  destruct two_views_exec as [data' Hexec].
  exists data'. split; [exact Hexec|].
  destruct (X17_detector_body_frame sample_to_angles (λ _ : unit, false)
              ones_convolver pointing_expanded sample_format sample_load
              sample_load plain_traits sample_files two_views "det0" data'
              (or_introl Hexec))
    as (expanded & Happly & _ & _ & _ & Hothers).
  injection Happly as <-. by apply Hothers.
Defined.
